(** * GltfToCocosMesh: a shallow embedding of [Geometry.ts] and of the
      Cocos mesh container reader, with the properties of its specification.

    Numbers are JavaScript numbers, that is binary64 floats: Rocq's primitive
    floats.  A [Float32Array] element is a binary64 value that went through
    [fround].  A thrown exception is an [outcome]; the methods that mutate
    the geometry thread it through a state monad. *)

From Stdlib Require Import ZArith NArith List Bool Lia String Ascii Floats Uint63.
From Stdlib Require Import DecimalString DecimalNat.
From stdpp Require Import base list.
Import ListNotations.

Set Default Goal Selector "!".

(* ================================================================== *)
(** * JavaScript values and exceptions *)

Module JS.

Inductive exn : Type :=
| TypeError
| RangeError
| Error (message : string)
| Thrown (value : string).

Inductive outcome (A : Type) : Type :=
| Ret (a : A)
| Throw (e : exn).
Arguments Ret {A} a.
Arguments Throw {A} e.

Definition obind {A B} (o : outcome A) (k : A -> outcome B) : outcome B :=
  match o with
  | Ret a => k a
  | Throw e => Throw e
  end.

(** [for (const x of xs) acc = body(acc, x)], stopping at the first throw. *)
Fixpoint foldM {A S} (body : S -> A -> outcome S) (xs : list A) (s : S)
  : outcome S :=
  match xs with
  | [] => Ret s
  | x :: xs' => obind (body s x) (foldM body xs')
  end.

(** [xs.map(f)] for an [f] that may throw. *)
Fixpoint mapM {A B} (f : A -> outcome B) (xs : list A) : outcome (list B) :=
  match xs with
  | [] => Ret []
  | x :: xs' =>
      obind (f x) (fun y => obind (mapM f xs') (fun ys => Ret (y :: ys)))
  end.

(** A number, or [undefined] ([None]): what reading an array element yields. *)
Definition value := option float.

(** [ToNumber]: [undefined] becomes [NaN]. *)
Definition toNumber (v : value) : float := default nan v.

(** [Math.fround]: rounding to the nearest binary32 value, ties to even,
    as a store into a [Float32Array] does. *)
Definition fround (x : float) : float :=
  match Prim2SF x with
  | S754_finite s m e =>
      SF2Prim (binary_normalize 24 128 (cond_Zopp s (Zpos m)) e s)
  | _ => x
  end.

(** The global [isFinite]. *)
Definition isFinite (x : float) : bool := is_finite x.

Definition Math_min (a b : float) : float :=
  if is_nan a then nan
  else if is_nan b then nan
  else if PrimFloat.ltb a b then a
  else if PrimFloat.ltb b a then b
  else if get_sign a then a else b.

Definition Math_max (a b : float) : float :=
  if is_nan a then nan
  else if is_nan b then nan
  else if PrimFloat.ltb b a then a
  else if PrimFloat.ltb a b then b
  else if get_sign a then b else a.

(** A loop counter as a number (exact below 2^53). *)
Definition ofNat (n : nat) : float := of_uint63 (Uint63.of_Z (Z.of_nat n)).

(** The array index a number denotes as a property key, if any: a
    non-negative integer ([-0] is the key ["0"]). *)
Definition toIndex (k : float) : option N :=
  match Prim2SF k with
  | S754_zero _ => Some 0%N
  | S754_finite false m e =>
      match e with
      | Z0 => Some (Npos m)
      | Zpos p => Some (N.shiftl (Npos m) (Npos p))
      | Zneg p =>
          if N.eqb (N.land (Npos m) (N.ones (Npos p))) 0
          then Some (N.shiftr (Npos m) (Npos p))
          else None
      end
  | _ => None
  end.

(** The element position the number [k] addresses in an array of [len]
    elements, if any. *)
Definition slot (len : nat) (k : float) : option nat :=
  match toIndex k with
  | Some n => if N.ltb n (N.of_nat len) then Some (N.to_nat n) else None
  | None => None
  end.

(** [xs[k]] for an array or typed array [xs] and a number [k]. *)
Definition item {A} (xs : list A) (k : float) : option A :=
  match slot (length xs) k with
  | Some n => xs !! n
  | None => None
  end.

(** The values of [i] in [for (i = 0; i < len / 3; i++)]: the quotient
    is a real number, so [i] runs while [3 * i < len]. *)
Definition upto3 (len : nat) : list nat := seq 0 (Nat.div (len + 2) 3).

(** The values of [i] in [for (i = 0; i < len; i += 3)]. *)
Definition by3 (len : nat) : list nat := map (fun k => k * 3) (upto3 len).

End JS.
Export JS.

Declare Scope outcome_scope.
Delimit Scope outcome_scope with outcome.
Notation "x <- c ;; k" := (obind c (fun x => k))
  (at level 100, c at next level, right associativity) : outcome_scope.

(* ================================================================== *)
(** * The gl-matrix vectors (backed by [Float32Array]) *)

Module vec2.
Local Open Scope float_scope.
Record t : Type := mk { c0 : float; c1 : float }.

Definition create : t := mk 0 0.
Definition set (x y : value) : t := mk (fround (toNumber x)) (fround (toNumber y)).
Definition subtract (a b : t) : t :=
  mk (fround (c0 a - c0 b)) (fround (c1 a - c1 b)).
End vec2.

Module vec3.
Local Open Scope float_scope.
Record t : Type := mk { c0 : float; c1 : float; c2 : float }.

Definition create : t := mk 0 0 0.
Definition fromValues (x y z : float) : t := mk (fround x) (fround y) (fround z).
Definition clone (a : t) : t := mk (fround (c0 a)) (fround (c1 a)) (fround (c2 a)).
Definition set (x y z : value) : t :=
  mk (fround (toNumber x)) (fround (toNumber y)) (fround (toNumber z)).
Definition add (a b : t) : t :=
  mk (fround (c0 a + c0 b)) (fround (c1 a + c1 b)) (fround (c2 a + c2 b)).
Definition subtract (a b : t) : t :=
  mk (fround (c0 a - c0 b)) (fround (c1 a - c1 b)) (fround (c2 a - c2 b)).
Definition min (a b : t) : t :=
  mk (fround (Math_min (c0 a) (c0 b))) (fround (Math_min (c1 a) (c1 b)))
     (fround (Math_min (c2 a) (c2 b))).
Definition max (a b : t) : t :=
  mk (fround (Math_max (c0 a) (c0 b))) (fround (Math_max (c1 a) (c1 b)))
     (fround (Math_max (c2 a) (c2 b))).
Definition scale (a : t) (b : float) : t :=
  mk (fround (c0 a * b)) (fround (c1 a * b)) (fround (c2 a * b)).
Definition scaleAndAdd (a b : t) (scale : float) : t :=
  mk (fround (c0 a + c0 b * scale)) (fround (c1 a + c1 b * scale))
     (fround (c2 a + c2 b * scale)).
Definition dot (a b : t) : float := c0 a * c0 b + c1 a * c1 b + c2 a * c2 b.
Definition cross (a b : t) : t :=
  mk (fround (c1 a * c2 b - c2 a * c1 b))
     (fround (c2 a * c0 b - c0 a * c2 b))
     (fround (c0 a * c1 b - c1 a * c0 b)).
Definition normalize (a : t) : t :=
  let len := c0 a * c0 a + c1 a * c1 a + c2 a * c2 a in
  let len := if PrimFloat.ltb 0 len then 1 / PrimFloat.sqrt len else len in
  mk (fround (c0 a * len)) (fround (c1 a * len)) (fround (c2 a * len)).
End vec3.

Module vec4.
Local Open Scope float_scope.
Record t : Type := mk { c0 : float; c1 : float; c2 : float; c3 : float }.

Definition fromValues (x y z w : float) : t :=
  mk (fround x) (fround y) (fround z) (fround w).
End vec4.

(* ================================================================== *)
(** * The loader's documents *)

Module glTFLoader.

(** Modelled from the spec: the declarations of [./glTFLoader] are not part
    of the sources; §6 gives what the loader supplies for a primitive (an
    index array, a mapping from source attribute key to an array, an
    optional precomputed bounding box), and [creatFromGLTF] reads the
    fields below.  [attributes] lists the enumerable keys in the order
    [for (const key in ...)] visits them, each with its accessor. *)
Record BoundingBox : Type := mkBoundingBox { min : vec3.t; max : vec3.t }.

Record Node : Type := mkNode { nodeID : float }.

Record Skin : Type := mkSkin { joints : list Node }.

Record MeshPrimitive (Accessor : Type) : Type := mkMeshPrimitive {
  indices : option Accessor;
  attributes : list (string * Accessor);
  boundingBox : option BoundingBox
}.
Arguments mkMeshPrimitive {Accessor} _ _ _.
Arguments indices {Accessor} _.
Arguments attributes {Accessor} _.
Arguments boundingBox {Accessor} _.

Record Mesh (Accessor : Type) : Type := mkMesh {
  primitives : list (MeshPrimitive Accessor)
}.
Arguments mkMesh {Accessor} _.
Arguments primitives {Accessor} _.

Record GLTF (Accessor : Type) : Type := mkGLTF {
  meshes : list (Mesh Accessor);
  skins : option (list Skin)
}.
Arguments mkGLTF {Accessor} _ _.
Arguments meshes {Accessor} _.
Arguments skins {Accessor} _.

End glTFLoader.

(* ================================================================== *)
(** * [Geometry.ts] *)

Module Geometry.
Local Open Scope float_scope.
Local Open Scope outcome_scope.

(** Modelled from the spec: the enumeration [AttributeName] is declared in
    [./Cocos], which is not part of the sources; §3 lists its semantic
    tags, here under the names [Geometry.ts] gives them. *)
Inductive AttributeName : Type :=
| ATTR_POSITION | ATTR_NORMAL | ATTR_TANGENT
| ATTR_TEX_COORD | ATTR_TEX_COORD1 | ATTR_TEX_COORD2
| ATTR_COLOR | ATTR_JOINTS | ATTR_WEIGHTS.

#[global] Instance AttributeName_eq_dec : EqDecision AttributeName.
Proof. solve_decision. Defined.

(** A typed array: the object's identity [addr] and its elements.  The
    arrays of a geometry are never written after they are stored, so an
    array is carried by value; two arrays are the same object when their
    [addr] agree. *)
Record TypeArray : Type := mkTypeArray { addr : nat; elems : list float }.

(** [name] is [undefined] ([None]) for a source key outside
    [gltfAttributeMaps]; [data] is [null] ([None]) when the loader gave no
    array. *)
Record AttributeData : Type := mkAttributeData {
  name : option AttributeName;
  data : option TypeArray
}.

Record PrimitiveData : Type := mkPrimitiveData {
  indices : option TypeArray;
  joints : option (list float);
  attributeDatas : list AttributeData;
  boundingBox : option glTFLoader.BoundingBox
}.

(** The table [gltfAttributeMaps]. *)
Definition gltfAttributeMaps : list (string * AttributeName) :=
  [("POSITION", ATTR_POSITION);
   ("NORMAL", ATTR_NORMAL);
   ("TANGENT", ATTR_TANGENT);
   ("TEXCOORD_0", ATTR_TEX_COORD);
   ("TEXCOORD_1", ATTR_TEX_COORD1);
   ("TEXCOORD_2", ATTR_TEX_COORD2);
   ("COLOR_0", ATTR_COLOR);
   ("JOINTS_0", ATTR_JOINTS);
   ("WEIGHTS_0", ATTR_WEIGHTS)]%string.

(** [gltfAttributeMaps[key]]: [undefined] ([None]) for a key that is not
    in the table (keys that name a member of [Object.prototype] are left
    out of the model). *)
Definition attributeNameOf (key : string) : option AttributeName :=
  option_map snd (find (fun entry => String.eqb (fst entry) key) gltfAttributeMaps).


(** [x => x.name == attributeName] *)
Definition named (attributeName : AttributeName) (x : AttributeData) : bool :=
  bool_decide (name x = Some attributeName).

(** ** The heap the methods act on *)

(** Ghost events: each run of a generator leaves one. *)
Inductive Event : Type :=
| NormalsComputed (indexPrimitive : nat)
| TangentsComputed (indexPrimitive : nat).

#[global] Instance Event_eq_dec : EqDecision Event.
Proof. solve_decision. Defined.

Definition isNormalsRun (e : Event) : bool :=
  match e with NormalsComputed _ => true | TangentsComputed _ => false end.

Definition isTangentsRun (e : Event) : bool :=
  match e with NormalsComputed _ => false | TangentsComputed _ => true end.

(** The receiver's [primitiveDatas], the next free array identity, and
    the ghost trace of generator runs. *)
Record State : Type := mkState {
  primitiveDatas : list PrimitiveData;
  nextAddr : nat;
  trace : list Event
}.

(** The computation counters: how many times each generator was started. *)
Definition normalRuns (st : State) : nat :=
  length (List.filter isNormalsRun (trace st)).

Definition tangentRuns (st : State) : nat :=
  length (List.filter isTangentsRun (trace st)).

Definition M (A : Type) : Type := State -> outcome A * State.

Definition ret {A} (a : A) : M A := fun st => (Ret a, st).
Definition throw {A} (e : exn) : M A := fun st => (Throw e, st).
Definition bind {A B} (m : M A) (k : A -> M B) : M B :=
  fun st =>
    match m st with
    | (Ret a, st') => k a st'
    | (Throw e, st') => (Throw e, st')
    end.
Definition lift {A} (o : outcome A) : M A := fun st => (o, st).

(** [new Float32Array(...)] once filled with [contents]. *)
Definition alloc (contents : list float) : M TypeArray :=
  fun st =>
    (Ret (mkTypeArray (nextAddr st) contents),
     mkState (primitiveDatas st) (S (nextAddr st)) (trace st)).

Definition emit (e : Event) : M unit :=
  fun st => (Ret tt, mkState (primitiveDatas st) (nextAddr st) (trace st ++ [e])).

(** [this.primitiveDatas[indexPrimitive]], possibly [undefined]. *)
Definition primitiveAt (indexPrimitive : nat) : M (option PrimitiveData) :=
  fun st => (Ret (primitiveDatas st !! indexPrimitive), st).

(** The primitive [p] with one more attribute entry. *)
Definition withAttribute (p : PrimitiveData) (attributeData : AttributeData)
  : PrimitiveData :=
  mkPrimitiveData (indices p) (joints p)
    (attributeDatas p ++ [attributeData]) (boundingBox p).

(** [this.primitiveDatas[indexPrimitive].attributeDatas.push(attributeData)] *)
Definition pushAttribute (indexPrimitive : nat) (attributeData : AttributeData)
  : M unit :=
  fun st =>
    match primitiveDatas st !! indexPrimitive with
    | None => (Throw TypeError, st)
    | Some p =>
        (Ret tt,
         mkState (<[indexPrimitive := withAttribute p attributeData]>
                    (primitiveDatas st))
                 (nextAddr st) (trace st))
    end.


Notation "x <~ c ;; k" := (bind c (fun x => k))
  (at level 100, c at next level, right associativity).

(** ** Reading vectors out of flat arrays *)

Definition createVector2 (array : list float) (index : value) : vec2.t :=
  let index := toNumber index * 2 in
  vec2.set (item array index) (item array (index + 1)).

Definition createVector3 (array : list float) (index : value) : vec3.t :=
  let index := toNumber index * 3 in
  vec3.set (item array index) (item array (index + 1)) (item array (index + 2)).

(** [primitiveData.attributeDatas.find(x => x.name == attributeName).data]:
    a [TypeError] when [find] gives [undefined]. *)
Definition attributeArray (attributeName : AttributeName)
    (primitiveData : PrimitiveData) : outcome (option TypeArray) :=
  match find (named attributeName) (attributeDatas primitiveData) with
  | Some x => Ret (data x)
  | None => Throw TypeError
  end.

(** Reading [array.length] or [array[i]] of a [null] array throws. *)
Definition nonNull (array : option TypeArray) : outcome (list float) :=
  match array with
  | Some a => Ret (elems a)
  | None => Throw TypeError
  end.

(** [vec3.add(vs[index], vs[index], d)]: [vs[index]] is [undefined]
    outside the array, and [vec3.add] then throws. *)
Definition addInto (vs : list vec3.t) (index : value) (d : vec3.t)
  : outcome (list vec3.t) :=
  match index with
  | Some k =>
      match slot (length vs) k with
      | Some n =>
          match vs !! n with
          | Some a => Ret (<[n := vec3.add a d]> vs)
          | None => Throw TypeError
          end
      | None => Throw TypeError
      end
  | None => Throw TypeError
  end.

(** ** [getBoundPositions] *)

Definition boundsSeed : vec3.t * vec3.t :=
  (vec3.fromValues infinity infinity infinity,
   vec3.fromValues neg_infinity neg_infinity neg_infinity).

Definition boundsOfPrimitive (bounds : vec3.t * vec3.t) (primitive : PrimitiveData)
  : outcome (vec3.t * vec3.t) :=
  match boundingBox primitive with
  | Some box =>
      Ret (vec3.min (fst bounds) (glTFLoader.min box),
           vec3.max (snd bounds) (glTFLoader.max box))
  | None =>
      data <- attributeArray ATTR_POSITION primitive ;;
      typeArray <- nonNull data ;;
      Ret (fold_left
             (fun b i =>
                let position := createVector3 typeArray (Some (ofNat i)) in
                (vec3.min (fst b) position, vec3.max (snd b) position))
             (by3 (length typeArray)) bounds)
  end.

Definition getBoundPositions (primitiveDatas : list PrimitiveData)
  : outcome (vec3.t * vec3.t) :=
  foldM boundsOfPrimitive primitiveDatas boundsSeed.

(** ** [computeNormals] *)

(** The body of the loop over the triangles; [i] is the position of the
    triangle's first index. *)
Definition normalsOfTriangle (positionArray indicesArray : list float)
    (normalList : list vec3.t) (i : nat) : outcome (list vec3.t) :=
  let index1 := indicesArray !! (i + 0)%nat in
  let index2 := indicesArray !! (i + 1)%nat in
  let index3 := indicesArray !! (i + 2)%nat in
  let vertex1 := createVector3 positionArray index1 in
  let vertex2 := createVector3 positionArray index2 in
  let vertex3 := createVector3 positionArray index3 in
  let dir1 := vec3.subtract vertex2 vertex1 in
  let dir2 := vec3.subtract vertex3 vertex1 in
  let dir3 := vec3.cross dir1 dir2 in
  normalList <- addInto normalList index1 dir3 ;;
  normalList <- addInto normalList index2 dir3 ;;
  addInto normalList index3 dir3.

Definition computeNormals (primitiveData : PrimitiveData)
  : outcome (list vec3.t) :=
  data <- attributeArray ATTR_POSITION primitiveData ;;
  positionArray <- nonNull data ;;
  let normalList := map (fun _ => vec3.create) (upto3 (length positionArray)) in
  indicesArray <- nonNull (indices primitiveData) ;;
  normalList <- foldM (normalsOfTriangle positionArray indicesArray)
                  (by3 (length indicesArray)) normalList ;;
  Ret (map vec3.normalize normalList).

(** ** [computeTangents] *)

(** The UV edges [uv1], [uv2] of triangle [i]. *)
Definition uvEdges (coordArray indicesArray : list float) (i : nat)
  : vec2.t * vec2.t :=
  let index1 := indicesArray !! (i * 3 + 0)%nat in
  let index2 := indicesArray !! (i * 3 + 1)%nat in
  let index3 := indicesArray !! (i * 3 + 2)%nat in
  let texcoord1 := createVector2 coordArray index1 in
  let texcoord2 := createVector2 coordArray index2 in
  let texcoord3 := createVector2 coordArray index3 in
  (vec2.subtract texcoord2 texcoord1, vec2.subtract texcoord3 texcoord1).

(** [r]: the inverse of the determinant of the UV edges. *)
Definition inverseDeterminant (uv1 uv2 : vec2.t) : float :=
  1 / (vec2.c0 uv1 * vec2.c1 uv2 - vec2.c0 uv2 * vec2.c1 uv1).

(** The body of the loop over the triangles, on the pair [(tan1, tan2)]. *)
Definition tangentsOfTriangle (positionArray coordArray indicesArray : list float)
    (tans : list vec3.t * list vec3.t) (i : nat)
  : outcome (list vec3.t * list vec3.t) :=
  let index1 := indicesArray !! (i * 3 + 0)%nat in
  let index2 := indicesArray !! (i * 3 + 1)%nat in
  let index3 := indicesArray !! (i * 3 + 2)%nat in
  let vertex1 := createVector3 positionArray index1 in
  let vertex2 := createVector3 positionArray index2 in
  let vertex3 := createVector3 positionArray index3 in
  let dir1 := vec3.subtract vertex2 vertex1 in
  let dir2 := vec3.subtract vertex3 vertex1 in
  let (uv1, uv2) := uvEdges coordArray indicesArray i in
  let r := inverseDeterminant uv1 uv2 in
  if negb (isFinite r) then Ret tans
  else
    let sdir := vec3.scale dir1 (vec2.c1 uv2) in
    let sdir := vec3.scaleAndAdd sdir dir2 (- vec2.c1 uv1) in
    let sdir := vec3.scale sdir r in
    let tdir := vec3.scale dir2 (vec2.c0 uv1) in
    let tdir := vec3.scaleAndAdd tdir dir1 (- vec2.c0 uv2) in
    let tdir := vec3.scale tdir r in
    tan1 <- addInto (fst tans) index1 sdir ;;
    tan1 <- addInto tan1 index2 sdir ;;
    tan1 <- addInto tan1 index3 sdir ;;
    tan2 <- addInto (snd tans) index1 tdir ;;
    tan2 <- addInto tan2 index2 tdir ;;
    tan2 <- addInto tan2 index3 tdir ;;
    Ret (tan1, tan2).

(** The accumulation loop of [computeTangents], run over [triangles]. *)
Definition accumulateTangents (positionArray coordArray indicesArray : list float)
    (triangles : list nat) (tans : list vec3.t * list vec3.t)
  : outcome (list vec3.t * list vec3.t) :=
  foldM (tangentsOfTriangle positionArray coordArray indicesArray) triangles tans.

(** The body of the loop over the vertices. *)
Definition tangentOfVertex (normalArray : option TypeArray)
    (tan1 tan2 : list vec3.t) (i : nat) : outcome vec4.t :=
  normalArray <- nonNull normalArray ;;
  let normal := createVector3 normalArray (Some (ofNat i)) in
  let normal := vec3.normalize normal in
  let normal2 := vec3.clone normal in
  match tan1 !! i with
  | None => Throw TypeError
  | Some t =>
      let temp := vec3.clone t in
      let normal := vec3.scale normal (vec3.dot normal t) in
      let temp := vec3.subtract temp normal in
      let temp := vec3.normalize temp in
      let temp2 := vec3.cross normal2 t in
      match tan2 !! i with
      | None => Throw TypeError
      | Some t2 =>
          let test := vec3.dot temp2 t2 in
          let w := if PrimFloat.ltb test 0 then 1 else 1 in
          Ret (vec4.fromValues (vec3.c0 temp) (vec3.c1 temp) (vec3.c2 temp) w)
      end
  end.

Definition computeTangents (primitiveData : PrimitiveData)
    (normalArray : option TypeArray) : outcome (list vec4.t) :=
  data <- attributeArray ATTR_POSITION primitiveData ;;
  positionArray <- nonNull data ;;
  let vertices := upto3 (length positionArray) in
  let tan1 := map (fun _ => vec3.create) vertices in
  let tan2 := map (fun _ => vec3.create) vertices in
  coordData <- attributeArray ATTR_TEX_COORD primitiveData ;;
  indicesArray <- nonNull (indices primitiveData) ;;
  tans <- match coordData with
          | Some coordArray =>
              accumulateTangents positionArray (elems coordArray) indicesArray
                (upto3 (length indicesArray)) (tan1, tan2)
          | None =>
              if decide (upto3 (length indicesArray) = []) then Ret (tan1, tan2)
              else Throw TypeError
          end ;;
  mapM (tangentOfVertex normalArray (fst tans) (snd tans)) vertices.

(** ** The flat arrays of the generated attributes *)

(** The loop that copies [normalList] into the new [Float32Array]. *)
Definition storeNormals (normalList : list vec3.t) : list float :=
  let componentCount := 3%nat in
  fold_left
    (fun typeArray i =>
       match normalList !! i with
       | Some normal =>
           let typeArray :=
             <[(i * componentCount + 0)%nat := fround (vec3.c0 normal)]> typeArray in
           let typeArray :=
             <[(i * componentCount + 1)%nat := fround (vec3.c1 normal)]> typeArray in
           <[(i * componentCount + 2)%nat := fround (vec3.c2 normal)]> typeArray
       | None => typeArray
       end)
    (seq 0 (length normalList))
    (replicate (length normalList * componentCount) 0).

Definition storeTangents (tangentList : list vec4.t) : list float :=
  let componentCount := 4%nat in
  fold_left
    (fun typeArray i =>
       match tangentList !! i with
       | Some tangent =>
           let typeArray :=
             <[(i * componentCount + 0)%nat := fround (vec4.c0 tangent)]> typeArray in
           let typeArray :=
             <[(i * componentCount + 1)%nat := fround (vec4.c1 tangent)]> typeArray in
           let typeArray :=
             <[(i * componentCount + 2)%nat := fround (vec4.c2 tangent)]> typeArray in
           <[(i * componentCount + 3)%nat := fround (vec4.c3 tangent)]> typeArray
       | None => typeArray
       end)
    (seq 0 (length tangentList))
    (replicate (length tangentList * componentCount) 0).

(** A generator applied to [this.primitiveDatas[indexPrimitive]]: on
    [undefined] its first property read throws. *)
Definition onPrimitive {A} (f : PrimitiveData -> outcome A)
    (primitive : option PrimitiveData) : outcome A :=
  match primitive with
  | Some p => f p
  | None => Throw TypeError
  end.

Definition createNormalTypeArray (indexPrimitive : nat) : M TypeArray :=
  _ <~ emit (NormalsComputed indexPrimitive) ;;
  primitive <~ primitiveAt indexPrimitive ;;
  normalList <~ lift (onPrimitive computeNormals primitive) ;;
  alloc (storeNormals normalList).

Definition createTangentAccessor (indexPrimitive : nat)
    (normalArray : option TypeArray) : M TypeArray :=
  _ <~ emit (TangentsComputed indexPrimitive) ;;
  primitive <~ primitiveAt indexPrimitive ;;
  tangentList <~
    lift (onPrimitive (fun p => computeTangents p normalArray) primitive) ;;
  alloc (storeTangents tangentList).

(** ** [getAttributeAccessor] *)

Definition notSupported : exn := Error "The attribute is not supported.".

(** The body of [getAttributeAccessor]; [self] stands for the method in
    its recursive call. *)
Definition getAttributeAccessorF
    (self : nat -> AttributeName -> M (option TypeArray))
    (indexPrimitive : nat) (attributeName : AttributeName)
  : M (option TypeArray) :=
  primitive <~ primitiveAt indexPrimitive ;;
  attributeData <~
    lift (onPrimitive
            (fun p => Ret (find (named attributeName) (attributeDatas p)))
            primitive) ;;
  match attributeData with
  | Some attributeData => ret (data attributeData)
  | None =>
      match attributeName with
      | ATTR_NORMAL =>
          data <~ createNormalTypeArray indexPrimitive ;;
          _ <~ pushAttribute indexPrimitive
                 (mkAttributeData (Some attributeName) (Some data)) ;;
          ret (Some data)
      | ATTR_TANGENT =>
          primitive <~ primitiveAt indexPrimitive ;;
          typeArray <~ lift (onPrimitive (attributeArray ATTR_NORMAL) primitive) ;;
          typeArray <~
            match typeArray with
            | None => self indexPrimitive ATTR_NORMAL
            | Some _ => ret typeArray
            end ;;
          data <~ createTangentAccessor indexPrimitive typeArray ;;
          _ <~ pushAttribute indexPrimitive
                 (mkAttributeData (Some attributeName) (Some data)) ;;
          ret (Some data)
      | _ => throw notSupported
      end
  end.

(** The method, unfolded to a call depth; the calls never nest deeper than
    two (lemma [getAttributeAccessor_depth]), and a deeper nesting would
    be a stack overflow. *)
Fixpoint getAttributeAccessorN (depth : nat) (indexPrimitive : nat)
    (attributeName : AttributeName) : M (option TypeArray) :=
  match depth with
  | O => throw RangeError
  | S depth' =>
      getAttributeAccessorF (getAttributeAccessorN depth')
        indexPrimitive attributeName
  end.

Definition getAttributeAccessor : nat -> AttributeName -> M (option TypeArray) :=
  getAttributeAccessorN 2.

(** ** The size invariant of the data model *)

(** The vertex count of a primitive: the length of its position array over
    3, when the array is made of whole vertices. *)
Definition vertexCount (p : PrimitiveData) : option nat :=
  match attributeArray ATTR_POSITION p with
  | Ret (Some positions) =>
      if decide (length (elems positions) `mod` 3 = 0)%nat
      then Some (length (elems positions) / 3)%nat
      else None
  | _ => None
  end.


(** ** [creatFromGLTF] *)

Section Loader.

(** [glTFLoaderBasic.accessorToTypeArray] is not part of the sources: a
    parameter, giving the elements of the array it builds ([None] when it
    gives no array).  Each array it builds is a new object. *)
Context {Accessor : Type}.
Variable accessorToTypeArray : option Accessor -> option (list float).

Definition load (next : nat) (accessor : option Accessor)
  : option TypeArray * nat :=
  match accessorToTypeArray accessor with
  | Some contents => (Some (mkTypeArray next contents), S next)
  | None => (None, next)
  end.

(** The body of the loop over [primitive.attributes]. *)
Definition addAttribute (acc : list AttributeData * nat)
    (entry : string * Accessor) : list AttributeData * nat :=
  let key := fst entry in
  let type := attributeNameOf key in
  let accessor := snd entry in
  let (data, next) := load (snd acc) (Some accessor) in
  (fst acc ++ [mkAttributeData type data], next).

(** The body of the loop over [mesh.primitives]: [primitiveData] is
    pushed first and filled afterwards, through the same object. *)
Definition addPrimitive (joints : option (list float)) (geometry : State)
    (primitive : glTFLoader.MeshPrimitive Accessor) : State :=
  let (indices, next) := load (nextAddr geometry) (glTFLoader.indices primitive) in
  let (attributeDatas, next) :=
    fold_left addAttribute (glTFLoader.attributes primitive) ([], next) in
  mkState
    (primitiveDatas geometry ++
       [mkPrimitiveData indices joints attributeDatas
          (glTFLoader.boundingBox primitive)])
    next (trace geometry).

Definition creatFromGLTF (gltf : glTFLoader.GLTF Accessor) : outcome State :=
  if decide (1 < length (glTFLoader.meshes gltf))%nat
  then Throw (Thrown "Multiple Mesh is not supported.")
  else
    let mesh := glTFLoader.meshes gltf !! 0%nat in
    let joints :=
      match glTFLoader.skins gltf with
      | None | Some [] => None
      | Some (skin :: _) =>
          Some (map glTFLoader.nodeID (glTFLoader.joints skin))
      end in
    match mesh with
    | None => Throw TypeError
    | Some mesh =>
        Ret (fold_left (addPrimitive joints) (glTFLoader.primitives mesh)
               (mkState [] 0 []))
    end.


End Loader.

End Geometry.

(* ================================================================== *)
(** * The Cocos mesh container: metadata holder and buffer decoder *)

Module CocosMesh.
Local Open Scope outcome_scope.

(** ** The parsed metadata document *)

(** What [JSON.parse] builds, and what the setters leave: a tree of
    arrays and objects over primitive values.  [JSON.parse] shares no
    node, so writing into the node at a path is replacing the subtree at
    that path.  [JUndefined] is what a hole of an array reads as. *)
#[local] Set Warnings "-register-all".
Inductive jsval : Type :=
| JUndefined
| JNull
| JBool (b : bool)
| JNum (x : float)
| JStr (s : string)
| JArr (items : list jsval)
| JObj (props : list (string * jsval)).

(** The property key of an array index: its decimal numeral. *)
Definition key_of_nat (n : nat) : string :=
  NilEmpty.string_of_uint (Nat.to_uint n).

(** The array index a property key denotes, if it is a canonical numeral. *)
Definition index_of_key (k : string) : option nat :=
  match NilEmpty.uint_of_string k with
  | Some u =>
      let n := Nat.of_uint u in
      if String.eqb (key_of_nat n) k then Some n else None
  | None => None
  end.

(** The first property named [k]. *)
Fixpoint assoc (k : string) (props : list (string * jsval)) : option jsval :=
  match props with
  | [] => None
  | (k', v) :: props' => if String.eqb k' k then Some v else assoc k props'
  end.

(** Assigning the property [k]: in place when it exists, appended
    otherwise. *)
Fixpoint assoc_set (k : string) (x : jsval) (props : list (string * jsval))
  : list (string * jsval) :=
  match props with
  | [] => [(k, x)]
  | (k', v) :: props' =>
      if String.eqb k' k then (k', x) :: props'
      else (k', v) :: assoc_set k x props'
  end.

(** [v[k]] for an own field [k] of the document. *)
Definition getProp (v : jsval) (k : string) : outcome jsval :=
  match v with
  | JUndefined | JNull => Throw TypeError
  | JBool _ | JNum _ => Ret JUndefined
  | JStr s =>
      Ret (match index_of_key k with
           | Some n =>
               match String.get n s with
               | Some c => JStr (String c EmptyString)
               | None => JUndefined
               end
           | None => JUndefined
           end)
  | JArr items =>
      Ret (match index_of_key k with
           | Some n => default JUndefined (items !! n)
           | None => JUndefined
           end)
  | JObj props => Ret (default JUndefined (assoc k props))
  end.

(** Arrays and objects: the values that hold properties. *)
Definition isObject (v : jsval) : bool :=
  match v with
  | JArr _ | JObj _ => true
  | _ => false
  end.

(** [v[n]] for a literal index [n]. *)
Definition getIndex (v : jsval) (n : nat) : outcome jsval :=
  getProp v (key_of_nat n).

(** [v[n] = x] in strict code.  An array grows to hold the index, with
    holes before it; a primitive value takes no property. *)
Definition setIndex (v : jsval) (n : nat) (x : jsval) : outcome jsval :=
  match v with
  | JArr items =>
      Ret (JArr (if decide (n < length items)%nat
                 then <[n := x]> items
                 else items ++ replicate (n - length items) JUndefined ++ [x]))
  | JObj props => Ret (JObj (assoc_set (key_of_nat n) x props))
  | _ => Throw TypeError
  end.

(** The document once the node reached by the indices [path] is [new]. *)
Fixpoint replaceAt (path : list nat) (new : jsval) (doc : jsval) : jsval :=
  match path with
  | [] => new
  | n :: path' =>
      match doc with
      | JArr items =>
          match items !! n with
          | Some child => JArr (<[n := replaceAt path' new child]> items)
          | None => doc
          end
      | JObj props =>
          match assoc (key_of_nat n) props with
          | Some child =>
              JObj (assoc_set (key_of_nat n) (replaceAt path' new child) props)
          | None => doc
          end
      | _ => doc
      end
  end.

(** Reading the field at the end of a path of property keys. *)
Definition getPath (path : list string) (doc : jsval) : outcome jsval :=
  foldM getProp path doc.

(** The path of keys of a path of indices. *)
Definition keys (path : list nat) : list string := map key_of_nat path.

(** Two paths name unrelated fields when neither leads through the other. *)
Definition apart (path1 path2 : list string) : Prop :=
  ~ path1 `prefix_of` path2 /\ ~ path2 `prefix_of` path1.

(** ** [CocosMeshMeta] *)

(** [Vec3] of [./Vec3]. *)
Record Vec3 : Type := mkVec3 { x : float; y : float; z : float }.

(** The holder: [_data], the parsed document.  [primitives],
    [vertexBundles] and [jointMaps] are references into it. *)
Record CocosMeshMeta : Type := mkCocosMeshMeta { data : jsval }.

Definition getBin (this : CocosMeshMeta) : outcome jsval :=
  d <- getIndex (data this) 5 ;;
  d <- getIndex d 0 ;;
  getIndex d 3.

(** The three writes of a setter into [getBin()[slot]]. *)
Definition setPosition (slot : nat) (this : CocosMeshMeta) (v : Vec3)
  : outcome CocosMeshMeta :=
  bin <- getBin this ;;
  positionArray <- getIndex bin slot ;;
  positionArray <- setIndex positionArray 1 (JNum (x v)) ;;
  positionArray <- setIndex positionArray 2 (JNum (y v)) ;;
  positionArray <- setIndex positionArray 3 (JNum (z v)) ;;
  Ret (mkCocosMeshMeta (replaceAt [5; 0; 3; slot] positionArray (data this))).

Definition set_minPosition : CocosMeshMeta -> Vec3 -> outcome CocosMeshMeta :=
  setPosition 3.

Definition set_maxPosition : CocosMeshMeta -> Vec3 -> outcome CocosMeshMeta :=
  setPosition 6.

(** The three writes of a setter, on the array it reached. *)
Definition written (v : Vec3) (array : jsval) : outcome jsval :=
  a <- setIndex array 1 (JNum (x v)) ;;
  a <- setIndex a 2 (JNum (y v)) ;;
  setIndex a 3 (JNum (z v)).

(** The fields the constructor keeps: [getBin()[0]["primitives"]] and its
    siblings. *)
Definition binField (field : string) (this : CocosMeshMeta) : outcome jsval :=
  bin <- getBin this ;;
  bin <- getIndex bin 0 ;;
  getProp bin field.

Definition primitives : CocosMeshMeta -> outcome jsval := binField "primitives".
Definition vertexBundles : CocosMeshMeta -> outcome jsval := binField "vertexBundles".
Definition jointMaps : CocosMeshMeta -> outcome jsval := binField "jointMaps".

(** [new CocosMeshMeta(jsonText)], given the document [JSON.parse] built. *)
Definition new_CocosMeshMeta (parsed : jsval) : outcome CocosMeshMeta :=
  let this := mkCocosMeshMeta parsed in
  _ <- primitives this ;;
  _ <- vertexBundles this ;;
  _ <- jointMaps this ;;
  Ret this.

(** ** The declarations of [./Cocos] *)

(** A typed-array constructor: the byte size of an element, the
    conversion a store applies to a number, and the element a view reads
    from the bytes of one element. *)
Record TypedArrayConstructor : Type := mkCtor {
  BYTES_PER_ELEMENT : nat;
  store : float -> float;
  element : list Byte.byte -> float
}.

(** [./Cocos] is not part of the sources; what the constructor of
    [CocosMesh] imports from it is taken as a parameter.  [getter format
    buffer position] is the [DataView] getter that the reader of [format]
    calls, at an absolute byte position of the buffer (a [RangeError]
    outside it); [readable format] tells whether [getReader] gives a reader
    for the format at all. *)
Class Cocos : Type := {
  Format : Type;
  FormatInfo : Type;
  FormatInfos : Format -> FormatInfo;
  count : FormatInfo -> nat;
  Attribute : Type;
  format : Attribute -> Format;
  getOffset : list Attribute -> nat -> nat;
  readable : Format -> bool;
  getter : Format -> list Byte.byte -> nat -> outcome float;
  getTypedArrayConstructor : FormatInfo -> TypedArrayConstructor;
  getIndexStrideCtor : nat -> TypedArrayConstructor
}.

(** [IBufferView] *)
Record BufferView : Type := mkBufferView {
  view_offset : nat;
  view_length : nat;
  view_count : nat;
  view_stride : nat
}.

Section Decoder.
Context `{Cocos}.

Record IVertexBundle : Type := mkIVertexBundle {
  view : BufferView;
  attributes : list Attribute
}.

Record ISubMesh : Type := mkISubMesh {
  vertexBundelIndices : list nat;
  indexView : option BufferView
}.

Record AttributeValue : Type := mkAttributeValue {
  attribute : Attribute;
  values : list float
}.

Record VertexBundle : Type := mkVertexBundle {
  attributeValues : list AttributeValue
}.

Record DataView : Type := mkDataView {
  buffer : list Byte.byte;
  byteOffset : nat
}.

(** [new DataView(arrayBuffer, byteOffset)] *)
Definition new_DataView (arrayBuffer : list Byte.byte) (byteOffset : nat)
  : outcome DataView :=
  if decide (byteOffset <= length arrayBuffer)
  then Ret (mkDataView arrayBuffer byteOffset)
  else Throw RangeError.

(** Modelled from the spec: [getReader] of [./Cocos] is not part of the
    sources.  §4.5: one scalar is read at a byte position and "decoded
    per the numeric format"; the reader of a format calls the format's
    [DataView] getter at the offset it is given, which a [DataView]
    counts from its own [byteOffset]. *)
Definition getReader (view : DataView) (format : Format)
  : option (nat -> outcome float) :=
  if readable format
  then Some (fun offset => getter format (buffer view) (byteOffset view + offset))
  else None.

(** [storage[index] = reader(offset)]; calling a [null] reader throws. *)
Definition readInto (reader : option (nat -> outcome float))
    (ctor : TypedArrayConstructor) (storage : list float)
    (index offset : nat) : outcome (list float) :=
  match reader with
  | None => Throw TypeError
  | Some reader =>
      scalar <- reader offset ;;
      Ret (<[index := store ctor scalar]> storage)
  end.

(** The body of the loop over the attributes of a bundle. *)
Definition decodeAttribute (arrayBuffer : list Byte.byte)
    (vertexBundle : IVertexBundle) (ia : nat) : outcome AttributeValue :=
  dataView <- new_DataView arrayBuffer
                (view_offset (view vertexBundle)
                 + getOffset (attributes vertexBundle) ia) ;;
  match attributes vertexBundle !! ia with
  | None => Throw TypeError
  | Some attr =>
      let format := format attr in
      let reader := getReader dataView format in
      let vertexCount := view_count (view vertexBundle) in
      let inputStride := view_stride (view vertexBundle) in
      let componentCount := count (FormatInfos format) in
      let StorageConstructor := getTypedArrayConstructor (FormatInfos format) in
      let storage := replicate (vertexCount * componentCount) 0%float in
      storage <-
        foldM (fun storage iVertex =>
                 foldM (fun storage iComponent =>
                          readInto reader StorageConstructor storage
                            (componentCount * iVertex + iComponent)
                            (inputStride * iVertex
                             + BYTES_PER_ELEMENT StorageConstructor * iComponent))
                   (seq 0 componentCount) storage)
          (seq 0 vertexCount) storage ;;
      Ret (mkAttributeValue attr storage)
  end.

Definition decodeBundle (arrayBuffer : list Byte.byte)
    (vertexBundle : IVertexBundle) : outcome VertexBundle :=
  attributeValues <-
    mapM (decodeAttribute arrayBuffer vertexBundle)
      (seq 0 (length (attributes vertexBundle))) ;;
  Ret (mkVertexBundle attributeValues).

(** [new Ctor(arrayBuffer, byteOffset, length)]: a view of [length]
    elements, aligned on the element size and inside the buffer. *)
Definition new_TypedArray (Ctor : TypedArrayConstructor)
    (arrayBuffer : list Byte.byte) (byteOffset length : nat)
  : outcome (list float) :=
  let size := BYTES_PER_ELEMENT Ctor in
  if decide (byteOffset `mod` size = 0
             /\ byteOffset + length * size <= List.length arrayBuffer)
  then Ret (map (fun i => element Ctor
                            (take size (drop (byteOffset + i * size) arrayBuffer)))
              (seq 0 length))
  else Throw RangeError.

(** The body of the loop over the submeshes. *)
Definition decodeIndices (arrayBuffer : list Byte.byte) (primitive : ISubMesh)
  : outcome (list float) :=
  match indexView primitive with
  | None => Throw TypeError
  | Some indexView =>
      let Ctor := getIndexStrideCtor (view_stride indexView) in
      new_TypedArray Ctor arrayBuffer (view_offset indexView) (view_count indexView)
  end.

Record t : Type := mkCocosMesh {
  bundles : list VertexBundle;
  indexArrays : list (list float)
}.

(** [new CocosMesh(arrayBuffer, meshMeta)], given the vertex bundles and
    the submeshes of [meshMeta]. *)
Definition new_CocosMesh (arrayBuffer : list Byte.byte)
    (vertexBundles : list IVertexBundle) (primitives : list ISubMesh)
  : outcome t :=
  bundles <- mapM (decodeBundle arrayBuffer) vertexBundles ;;
  indexArrays <- mapM (decodeIndices arrayBuffer) primitives ;;
  Ret (mkCocosMesh bundles indexArrays).

End Decoder.

End CocosMesh.

(* ================================================================== *)
(** * Sample inputs *)

Module Samples.
Import Geometry.
Local Open Scope float_scope.

(** The triangle (0,0,0), (1,0,0), (0,1,0). *)
Definition trianglePositions : list float := [0; 0; 0; 1; 0; 0; 0; 1; 0].
Definition triangleIndices : list float := [0; 1; 2].
Definition triangleCoords : list float := [0; 0; 1; 0; 0; 1].
Definition triangleNormals : list float := [0; 0; 1; 0; 0; 1; 0; 0; 1].

Definition position (a : nat) (contents : list float) : AttributeData :=
  mkAttributeData (Some ATTR_POSITION) (Some (mkTypeArray a contents)).
Definition texCoord (a : nat) (contents : list float) : AttributeData :=
  mkAttributeData (Some ATTR_TEX_COORD) (Some (mkTypeArray a contents)).
Definition normal (a : nat) (contents : list float) : AttributeData :=
  mkAttributeData (Some ATTR_NORMAL) (Some (mkTypeArray a contents)).

(** Positions and texture coordinates, neither normals nor tangents. *)
Definition bareTriangle : PrimitiveData :=
  mkPrimitiveData (Some (mkTypeArray 0 triangleIndices)) None
    [position 1 trianglePositions; texCoord 2 triangleCoords] None.

(** The same with the normals the source supplies. *)
Definition shadedTriangle : PrimitiveData :=
  mkPrimitiveData (Some (mkTypeArray 0 triangleIndices)) None
    [position 1 trianglePositions; texCoord 2 triangleCoords;
     normal 3 triangleNormals] None.

(** The same with texture coordinates mirrored in V: the handedness test
    of [computeTangents] is negative on it. *)
Definition mirroredCoords : list float := [0; 0; 1; 0; 0; -1].
Definition mirroredTriangle : PrimitiveData :=
  mkPrimitiveData (Some (mkTypeArray 0 triangleIndices)) None
    [position 1 trianglePositions; texCoord 2 mirroredCoords;
     normal 3 triangleNormals] None.

(** A triangle whose three texture coordinates coincide. *)
Definition collapsedCoords : list float := [0.5; 0.5; 0.5; 0.5; 0.5; 0.5].

Definition bareGeometry : State := mkState [bareTriangle] 3 [].


(** Primitive A carries a box; primitive B has none, and two vertices
    (0,0,0) and (2,2,2). *)
Definition boxedA : PrimitiveData :=
  mkPrimitiveData None None []
    (Some (glTFLoader.mkBoundingBox (vec3.mk (-1) (-1) (-1)) (vec3.mk 1 1 1))).
Definition unboxedB : PrimitiveData :=
  mkPrimitiveData None None [position 0 [0; 0; 0; 2; 2; 2]] None.

Definition nanVector : vec3.t := vec3.mk nan nan nan.


(** The bare triangle once its normals are generated. *)
Definition generatedNormals : TypeArray := mkTypeArray 3 triangleNormals.
Definition normalGeometry : State :=
  mkState
    [withAttribute bareTriangle
       (mkAttributeData (Some ATTR_NORMAL) (Some generatedNormals))]
    4 [NormalsComputed 0].

(** A loader whose accessors are the arrays themselves. *)
Definition plainLoader (accessor : option (list float)) : option (list float) :=
  accessor.


(** One mesh with one boxed primitive, and a skin of two joints. *)
Definition skinnedSource : glTFLoader.GLTF (list float) :=
  glTFLoader.mkGLTF
    [glTFLoader.mkMesh
       [glTFLoader.mkMeshPrimitive (Some triangleIndices)
          [("POSITION"%string, trianglePositions)]
          (Some (glTFLoader.mkBoundingBox (vec3.mk 0 0 0) (vec3.mk 1 1 0)))]]
    (Some [glTFLoader.mkSkin [glTFLoader.mkNode 4; glTFLoader.mkNode 7]]).

(** A primitive with neither a box nor attributes. *)
Definition emptyPrimitive : PrimitiveData := mkPrimitiveData None None [] None.

(** Four vertices, the last one used by no triangle; and a position array
    that stops in the middle of a vertex. *)
Definition looseVertex : PrimitiveData :=
  mkPrimitiveData (Some (mkTypeArray 0 triangleIndices)) None
    [position 1 (trianglePositions ++ [5; 5; 5])] None.

Definition raggedTriangle : PrimitiveData :=
  mkPrimitiveData (Some (mkTypeArray 0 [])) None
    [position 1 [0; 0; 0; 1]] None.

End Samples.

Module MeshSamples.
Import CocosMesh.
Local Open Scope float_scope.

(** A metadata document of the shape the holder reads: the bin at
    [[5][0][3]], with the descriptors in its element 0, the minimum in its
    element 3 and the maximum in its element 6. *)
Definition sampleBin : jsval :=
  JArr [JObj [("primitives"%string, JArr []);
              ("vertexBundles"%string, JArr []);
              ("jointMaps"%string, JNull)];
        JNull; JNull;
        JArr [JNum 8; JNum 0; JNum 0; JNum 0];
        JNull; JNull;
        JArr [JNum 8; JNum 0; JNum 0; JNum 0]].

Definition sampleDocument (bin : jsval) : jsval :=
  JArr [JNum 1; JNull; JNull; JNull; JNull;
        JArr [JArr [JNum 0; JStr "mesh"; JNull; bin]]].

Definition sampleMeta : CocosMeshMeta := mkCocosMeshMeta (sampleDocument sampleBin).

Definition sampleBinAfterMin : jsval :=
  JArr [JObj [("primitives"%string, JArr []);
              ("vertexBundles"%string, JArr []);
              ("jointMaps"%string, JNull)];
        JNull; JNull;
        JArr [JNum 8; JNum (-1); JNum (-2); JNum (-3)];
        JNull; JNull;
        JArr [JNum 8; JNum 0; JNum 0; JNum 0]].

Definition sampleMetaAfterMin : CocosMeshMeta :=
  mkCocosMeshMeta (sampleDocument sampleBinAfterMin).

(** A container of unsigned bytes: two formats, of one and of three
    components, read with [getUint8] and held in a [Uint8Array]. *)
Inductive ByteFormat : Type := R8UI | RGB8UI.

Definition byteValue (b : Byte.byte) : float := ofNat (Byte.to_nat b).

Definition Uint8Array : TypedArrayConstructor :=
  mkCtor 1 (fun scalar => scalar)
    (fun bytes => match bytes with b :: _ => byteValue b | [] => 0 end).

Definition byteCount (format : ByteFormat) : nat :=
  match format with R8UI => 1 | RGB8UI => 3 end.

#[local] Instance byteCocos : Cocos := {|
  Format := ByteFormat;
  FormatInfo := nat;
  FormatInfos := byteCount;
  count := fun info => info;
  Attribute := ByteFormat;
  format := fun attr => attr;
  getOffset := fun attrs ia => list_sum (map byteCount (take ia attrs));
  readable := fun _ => true;
  getter := fun _ arrayBuffer position =>
    match arrayBuffer !! position with
    | Some b => Ret (byteValue b)
    | None => Throw RangeError
    end;
  getTypedArrayConstructor := fun _ => Uint8Array;
  getIndexStrideCtor := fun _ => Uint8Array
|}.

(** Two vertices of three bytes each, in records of three bytes. *)
Definition sampleBuffer : list Byte.byte :=
  [Byte.x0a; Byte.x14; Byte.x1e; Byte.x28; Byte.x32; Byte.x3c].

Definition sampleBundle : IVertexBundle :=
  mkIVertexBundle (mkBufferView 0 6 2 3) [RGB8UI].

Definition sampleMesh : CocosMesh.t :=
  mkCocosMesh [mkVertexBundle [mkAttributeValue RGB8UI [10; 20; 30; 40; 50; 60]]] [].

(** A submesh whose three one-byte indices start at byte 2. *)
Definition sampleSubMesh : ISubMesh :=
  mkISubMesh [0%nat] (Some (mkBufferView 2 3 3 1)).

(** A bundle that announces three vertices where the buffer holds two. *)
Definition shortBundle : IVertexBundle :=
  mkIVertexBundle (mkBufferView 0 9 3 3) [RGB8UI].

End MeshSamples.

(* ================================================================== *)
(** * Generalities on computations that may throw *)

Module OutcomeFacts.

Lemma obind_Ret {A B} (o : outcome A) (k : A -> outcome B) (b : B) :
  obind o k = Ret b -> exists a, o = Ret a /\ k a = Ret b.
Proof. destruct o as [a|e]; simpl; [eauto | discriminate]. Qed.

Lemma foldM_app {A S} (body : S -> A -> outcome S) (xs ys : list A) (s : S) :
  foldM body (xs ++ ys) s = obind (foldM body xs s) (foldM body ys).
Proof.
  revert s; induction xs as [|x xs IH]; intros s; simpl; [reflexivity|].
  destruct (body s x); simpl; [apply IH | reflexivity].
Qed.

Lemma mapM_length {A B} (f : A -> outcome B) (xs : list A) (ys : list B) :
  mapM f xs = Ret ys -> length ys = length xs.
Proof.
  revert ys; induction xs as [|x xs IH]; intros ys; simpl.
  - intros [= <-]; reflexivity.
  - destruct (f x) as [y|]; simpl; [|discriminate].
    destruct (mapM f xs) as [ys'|]; simpl; [|discriminate].
    intros [= <-]; simpl; f_equal; apply IH; reflexivity.
Qed.

Lemma mapM_lookup {A B} (f : A -> outcome B) (xs : list A) (ys : list B)
    (i : nat) (y : B) :
  mapM f xs = Ret ys -> ys !! i = Some y ->
  exists x, xs !! i = Some x /\ f x = Ret y.
Proof.
  revert ys i; induction xs as [|x xs IH]; intros ys i; simpl.
  - intros [= <-]; rewrite lookup_nil; discriminate.
  - destruct (f x) as [y0|] eqn:Hx; simpl; [|discriminate].
    destruct (mapM f xs) as [ys'|] eqn:Hxs; simpl; [|discriminate].
    intros [= <-]; destruct i as [|i]; simpl.
    + intros [= <-]; eauto.
    + intros Hy; apply (IH ys' i); [reflexivity | exact Hy].
Qed.

Lemma foldM_invariant {A S} (body : S -> A -> outcome S) (P : S -> Prop)
    (xs : list A) (s s' : S) :
  (forall s a s', body s a = Ret s' -> P s -> P s') ->
  foldM body xs s = Ret s' -> P s -> P s'.
Proof.
  intros Hbody. revert s; induction xs as [|x xs IH]; intros s; simpl.
  - intros [= <-]; trivial.
  - destruct (body s x) as [s1|] eqn:Hx; simpl; [|discriminate].
    intros Hrun Hs. apply (IH s1 Hrun). exact (Hbody _ _ _ Hx Hs).
Qed.

(** Loops over [0 .. n-1], by invariant. *)
Lemma fold_left_seq_invariant {S} (f : S -> nat -> S) (P : nat -> S -> Prop)
    (n : nat) (s : S) :
  P 0%nat s ->
  (forall m s, (m < n)%nat -> P m s -> P (Datatypes.S m) (f s m)) ->
  P n (fold_left f (seq 0 n) s).
Proof.
  intros H0 Hstep. induction n as [|n IH]; [exact H0|].
  rewrite seq_S, fold_left_app; simpl.
  apply Hstep; [lia|]. apply IH. intros m s' Hm; apply Hstep; lia.
Qed.

Lemma mapM_lookup_Some {A B} (f : A -> outcome B) (xs : list A) (ys : list B)
    (i : nat) (x : A) :
  mapM f xs = Ret ys -> xs !! i = Some x ->
  exists y, ys !! i = Some y /\ f x = Ret y.
Proof.
  revert ys i; induction xs as [|x0 xs IH]; intros ys i; simpl.
  - intros _. rewrite lookup_nil; discriminate.
  - destruct (f x0) as [y0|] eqn:Hx; simpl; [|discriminate].
    destruct (mapM f xs) as [ys'|] eqn:Hxs; simpl; [|discriminate].
    intros [= <-]; destruct i as [|i]; simpl.
    + intros [= <-]; eauto.
    + intros Hi; apply (IH ys' i); [reflexivity | exact Hi].
Qed.

(** Loops over [0 .. n-1] that may throw, by invariant. *)
Lemma foldM_seq_invariant {S} (body : S -> nat -> outcome S) (P : nat -> S -> Prop)
    (n : nat) (s s' : S) :
  P 0%nat s ->
  (forall m s s', (m < n)%nat -> P m s -> body s m = Ret s' -> P (Datatypes.S m) s') ->
  foldM body (seq 0 n) s = Ret s' -> P n s'.
Proof.
  intros H0 Hstep. revert s'. induction n as [|n IH]; intros s'.
  - simpl. intros [= <-]. exact H0.
  - rewrite seq_S, foldM_app. simpl.
    destruct (foldM body (seq 0 n) s) as [s1|] eqn:Hrun; simpl; [|discriminate].
    destruct (body s1 n) as [s2|] eqn:Hbody; simpl; [|discriminate].
    intros [= <-]. apply (Hstep n s1 s2); [lia| |exact Hbody].
    apply IH; [|reflexivity]. intros m t t' Hm. apply Hstep. lia.
Qed.

Lemma foldM_Throw {A S} (body : S -> A -> outcome S) (xs : list A) (s : S) (e : exn) :
  foldM body xs s = Throw e -> exists s1 x, In x xs /\ body s1 x = Throw e.
Proof.
  revert s; induction xs as [|x xs IH]; intros s; simpl; [discriminate|].
  destruct (body s x) as [s1|e1] eqn:Hx; simpl.
  - intros Hrun. destruct (IH s1 Hrun) as (s2 & x2 & Hin & Hbody). eauto.
  - intros [= <-]. eauto.
Qed.


(** Every pass of a loop that returned did return. *)
Lemma foldM_steps {A S} (body : S -> A -> outcome S) (P : S -> Prop)
    (xs : list A) (s s' : S) :
  (forall s a s', body s a = Ret s' -> P s -> P s') ->
  foldM body xs s = Ret s' -> P s ->
  forall x, In x xs -> exists s1 s2, P s1 /\ body s1 x = Ret s2.
Proof.
  intros Hbody. revert s; induction xs as [|x xs IH]; intros s; simpl.
  - intros _ _ y [].
  - destruct (body s x) as [s1|] eqn:Hx; simpl; [|discriminate].
    intros Hrun Hs y [<-|Hin]; [eauto|].
    apply (IH s1 Hrun (Hbody _ _ _ Hx Hs) y Hin).
Qed.

Lemma mapM_Forall2 {A B} (f : A -> outcome B) (xs : list A) (ys : list B) :
  mapM f xs = Ret ys -> Forall2 (fun x y => f x = Ret y) xs ys.
Proof.
  revert ys; induction xs as [|x xs IH]; intros ys; simpl.
  - intros [= <-]; constructor.
  - destruct (f x) as [y|] eqn:Hx; simpl; [|discriminate].
    destruct (mapM f xs) as [ys'|]; simpl; [|discriminate].
    intros [= <-]. constructor; [exact Hx | apply IH; reflexivity].
Qed.

(** A loop whose every pass returns, returns. *)
Lemma foldM_total {A S} (body : S -> A -> outcome S) (xs : list A) (s : S) :
  (forall s x, In x xs -> exists s', body s x = Ret s') ->
  exists s', foldM body xs s = Ret s'.
Proof.
  revert s; induction xs as [|x xs IH]; intros s Hbody; simpl; [eauto|].
  destruct (Hbody s x (or_introl eq_refl)) as [s1 ->]. simpl.
  apply IH. intros s' y Hy. apply Hbody. right; exact Hy.
Qed.

End OutcomeFacts.

(* ================================================================== *)
(** * The number model on a few values *)

Module NumberFacts.
Local Open Scope float_scope.

Example fround_ties_to_even : fround 16777217 = 16777216.
Proof. vm_compute. reflexivity. Qed.

Example fround_overflow : fround 0x1p+128 = infinity.
Proof. vm_compute. reflexivity. Qed.

Example fround_underflow : fround 0x1p-150 = 0.
Proof. vm_compute. reflexivity. Qed.

Example toIndex_integer : toIndex 6 = Some 6%N.
Proof. vm_compute. reflexivity. Qed.

Example toIndex_fraction : toIndex 1.5 = None.
Proof. vm_compute. reflexivity. Qed.

Example toIndex_negative : toIndex (-1) = None.
Proof. vm_compute. reflexivity. Qed.

Example toIndex_nan : toIndex nan = None.
Proof. vm_compute. reflexivity. Qed.

Example item_past_end : item [1; 2; 3] (ofNat 3) = None.
Proof. vm_compute. reflexivity. Qed.

Example Math_min_zeros : Math_min 0 (-0) = (-0) /\ Math_max (-0) 0 = 0.
Proof. split; vm_compute; reflexivity. Qed.

Example by3_four_elements : by3 4 = [0; 3]%nat /\ upto3 4 = [0; 1]%nat.
Proof. split; reflexivity. Qed.

End NumberFacts.

(* ================================================================== *)
(** * Properties of [Geometry.ts] *)

Module GeometryFacts.
Import OutcomeFacts Geometry Samples.
Local Open Scope float_scope.

(** ** The normal generator on the unit triangle *)

(** C8. For a primitive whose position array is (0,0,0), (1,0,0), (0,1,0)
    and whose index array is [0,1,2], [computeNormals] returns the normal
    (0,0,1) for each of the three vertices. *)
Theorem computeNormals_unit_triangle (p : PrimitiveData) (positions indexes : TypeArray) :
  attributeArray ATTR_POSITION p = Ret (Some positions) ->
  elems positions = trianglePositions ->
  indices p = Some indexes ->
  elems indexes = triangleIndices ->
  computeNormals p = Ret [vec3.mk 0 0 1; vec3.mk 0 0 1; vec3.mk 0 0 1].
Proof.
  intros Hpos Hp Hidx Hi. unfold computeNormals.
  rewrite Hpos; simpl. rewrite Hidx; simpl. rewrite Hp, Hi.
  vm_compute. reflexivity.
Qed.

Lemma computeNormals_unit_triangle_witness :
  computeNormals bareTriangle = Ret [vec3.mk 0 0 1; vec3.mk 0 0 1; vec3.mk 0 0 1].
Proof.
  apply (computeNormals_unit_triangle bareTriangle
           (mkTypeArray 1 trianglePositions) (mkTypeArray 0 triangleIndices));
    reflexivity.
Defined.

(** ** The bounding volume of a box and an unboxed primitive *)

(** [Math.min] and [Math.max] give [NaN] as soon as one argument is [NaN]. *)
Lemma Math_min_nan_r (a : float) : Math_min a nan = nan.
Proof. unfold Math_min. destruct (is_nan a); reflexivity. Qed.

Lemma Math_max_nan_r (a : float) : Math_max a nan = nan.
Proof. unfold Math_max. destruct (is_nan a); reflexivity. Qed.

(** A read past the end of the position array gives a vertex of [NaN]s. *)
Lemma createVector3_past_end :
  createVector3 [0; 0; 0; 2; 2; 2] (Some (ofNat 3)) = nanVector.
Proof. vm_compute. reflexivity. Qed.

(** C9. On the geometry made of primitive A, with the precomputed box
    [(-1,-1,-1),(1,1,1)], and of primitive B, with no box and the two
    vertices (0,0,0) and (2,2,2), [getBoundPositions] returns [NaN] in every
    component of both bounds, not min = (-1,-1,-1) and max = (2,2,2): the
    loop over B passes the element offset [i] (0, 3, ...) to
    [createVector3], which multiplies it by 3 again, so the second vertex is
    read past the end of the array. *)
Theorem getBoundPositions_box_and_scan :
  getBoundPositions [boxedA; unboxedB] = Ret (nanVector, nanVector).
Proof. vm_compute. reflexivity. Qed.

(** The box of A alone is folded as the specification says. *)
Lemma getBoundPositions_box_only :
  getBoundPositions [boxedA] = Ret (vec3.mk (-1) (-1) (-1), vec3.mk 1 1 1).
Proof. vm_compute. reflexivity. Qed.

(** ** The tangent generator: handedness *)

Lemma fround_one : fround 1 = 1.
Proof. vm_compute. reflexivity. Qed.

(** Whatever the accumulators hold, a vertex gets the handedness 1. *)
Lemma tangentOfVertex_handedness (normalArray : option TypeArray)
    (tan1 tan2 : list vec3.t) (i : nat) (tangent : vec4.t) :
  tangentOfVertex normalArray tan1 tan2 i = Ret tangent -> vec4.c3 tangent = 1.
Proof.
  unfold tangentOfVertex.
  destruct (nonNull normalArray) as [normals|]; simpl; [|discriminate].
  destruct (tan1 !! i) as [t|]; [|discriminate].
  destruct (tan2 !! i) as [t2|]; [|discriminate].
  intros [= <-]; simpl.
  destruct (PrimFloat.ltb _ 0); apply fround_one.
Qed.

(** The copy loops fill an array of the right length, slot by slot. *)
Lemma storeTangents_spec (tangentList : list vec4.t) :
  length (storeTangents tangentList) = (length tangentList * 4)%nat
  /\ forall i tangent, tangentList !! i = Some tangent ->
       storeTangents tangentList !! (i * 4 + 3)%nat = Some (fround (vec4.c3 tangent)).
Proof.
  unfold storeTangents.
  set (n := length tangentList).
  match goal with
  | |- context [fold_left ?f (seq 0 n) ?init] =>
      pose proof (fold_left_seq_invariant f
           (fun m arr =>
              length arr = (n * 4)%nat
              /\ forall i tangent, (i < m)%nat -> tangentList !! i = Some tangent ->
                   arr !! (i * 4 + 3)%nat = Some (fround (vec4.c3 tangent)))
           n init) as Hinv
  end.
  destruct Hinv as [Hlen Hget].
  - split; [apply length_replicate | intros; lia].
  - intros m arr Hm [Hlen Hget].
    destruct (lookup_lt_is_Some_2 tangentList m Hm) as [t Ht]. rewrite Ht.
    split; [rewrite !length_insert; exact Hlen|].
    intros i tangent Hi Hi'.
    destruct (decide (i = m)) as [->|Hne].
    + assert (t = tangent) as -> by congruence.
      apply list_lookup_insert_eq. rewrite !length_insert. lia.
    + rewrite !list_lookup_insert_ne by lia. apply Hget; [lia | exact Hi'].
  - split; [exact Hlen|].
    intros i tangent Hi. apply Hget; [|exact Hi].
    apply lookup_lt_Some in Hi; exact Hi.
Qed.

Lemma length_storeNormals (normalList : list vec3.t) :
  length (storeNormals normalList) = (length normalList * 3)%nat.
Proof.
  unfold storeNormals.
  apply (fold_left_seq_invariant _ (fun _ arr => length arr = (length normalList * 3)%nat)).
  - apply length_replicate.
  - intros m arr _ Hlen. destruct (normalList !! m); [|exact Hlen].
    rewrite !length_insert; exact Hlen.
Qed.

(** C2. Every tangent [computeTangents] emits has the handedness component
    +1, whatever the sign of the test value [dot(cross(normal, tan1), tan2)],
    and so has the flat array built from them. *)
Theorem computeTangents_handedness (p : PrimitiveData) (normalArray : option TypeArray)
    (tangentList : list vec4.t) (i : nat) (tangent : vec4.t) :
  computeTangents p normalArray = Ret tangentList ->
  tangentList !! i = Some tangent ->
  vec4.c3 tangent = 1
  /\ storeTangents tangentList !! (i * 4 + 3)%nat = Some 1.
Proof.
  intros Hrun Hi.
  assert (vec4.c3 tangent = 1) as Hw.
  { unfold computeTangents in Hrun.
    repeat (apply obind_Ret in Hrun; destruct Hrun as (? & _ & Hrun)).
    destruct (mapM_lookup _ _ _ _ _ Hrun Hi) as (v & _ & Hv).
    exact (tangentOfVertex_handedness _ _ _ _ _ Hv). }
  split; [exact Hw|].
  rewrite (proj2 (storeTangents_spec tangentList) i tangent Hi), Hw.
  f_equal; apply fround_one.
Qed.

(** On the mirrored triangle the test value is -1 at every vertex. *)
Lemma mirroredTriangle_test_negative :
  accumulateTangents trianglePositions mirroredCoords triangleIndices [0%nat]
    ([vec3.create; vec3.create; vec3.create], [vec3.create; vec3.create; vec3.create])
  = Ret ([vec3.mk 1 0 0; vec3.mk 1 0 0; vec3.mk 1 0 0],
         [vec3.mk 0 (-1) 0; vec3.mk 0 (-1) 0; vec3.mk 0 (-1) 0])
  /\ vec3.dot (vec3.cross (vec3.mk 0 0 1) (vec3.mk 1 0 0)) (vec3.mk 0 (-1) 0) = (-1).
Proof. split; vm_compute; reflexivity. Qed.

Lemma computeTangents_handedness_witness :
  vec4.c3 (vec4.mk 1 0 0 1) = 1
  /\ storeTangents [vec4.mk 1 0 0 1; vec4.mk 1 0 0 1; vec4.mk 1 0 0 1] !! (0 * 4 + 3)%nat
     = Some 1.
Proof.
  apply (computeTangents_handedness mirroredTriangle
           (Some (mkTypeArray 3 triangleNormals))
           [vec4.mk 1 0 0 1; vec4.mk 1 0 0 1; vec4.mk 1 0 0 1] 0 (vec4.mk 1 0 0 1)).
  - vm_compute. reflexivity.
  - reflexivity.
Defined.

(** ** The tangent generator: degenerate UV triangles *)

(** A zero determinant, of either sign, has no finite inverse. *)
Lemma inverse_of_zero_not_finite (det : float) :
  PrimFloat.is_zero det = true -> isFinite (1 / det) = false.
Proof.
  unfold PrimFloat.is_zero. rewrite FloatAxioms.eqb_spec.
  rewrite <- (SF2Prim_Prim2SF det) at 2.
  destruct (Prim2SF det) as [[|]|[|]| |[|] m e]; try discriminate;
    intros _; vm_compute; reflexivity.
Qed.

(** C4. A triangle whose [r = 1 / (uv1.x * uv2.y - uv2.x * uv1.y)] is not
    finite is skipped: its pass through the loop leaves [tan1] and [tan2]
    as they were, and the accumulation over a list of triangles is the
    accumulation over the list without it. *)
Theorem degenerate_triangle_skipped
    (positionArray coordArray indicesArray : list float)
    (before after : list nat) (i : nat) (tans : list vec3.t * list vec3.t) :
  isFinite (inverseDeterminant (fst (uvEdges coordArray indicesArray i))
                               (snd (uvEdges coordArray indicesArray i))) = false ->
  tangentsOfTriangle positionArray coordArray indicesArray tans i = Ret tans
  /\ accumulateTangents positionArray coordArray indicesArray
       (before ++ i :: after) tans
     = accumulateTangents positionArray coordArray indicesArray
         (before ++ after) tans.
Proof.
  intros Hr.
  assert (forall ts, tangentsOfTriangle positionArray coordArray indicesArray ts i
                     = Ret ts) as Hskip.
  { intros ts. unfold tangentsOfTriangle.
    destruct (uvEdges coordArray indicesArray i) as [uv1 uv2]; simpl in Hr.
    rewrite Hr. reflexivity. }
  split; [apply Hskip|].
  unfold accumulateTangents. rewrite !foldM_app.
  destruct (foldM _ before tans) as [ts|e]; simpl; [|reflexivity].
  rewrite Hskip. reflexivity.
Qed.

(** The triangle whose three UVs coincide has a zero determinant. *)
Lemma degenerate_triangle_skipped_witness :
  tangentsOfTriangle trianglePositions collapsedCoords triangleIndices
    ([vec3.mk 1 2 3], [vec3.mk 4 5 6]) 0
  = Ret ([vec3.mk 1 2 3], [vec3.mk 4 5 6])
  /\ accumulateTangents trianglePositions collapsedCoords triangleIndices
       ([] ++ 0%nat :: []) ([vec3.mk 1 2 3], [vec3.mk 4 5 6])
     = accumulateTangents trianglePositions collapsedCoords triangleIndices
         ([] ++ []) ([vec3.mk 1 2 3], [vec3.mk 4 5 6]).
Proof.
  apply (degenerate_triangle_skipped trianglePositions collapsedCoords
           triangleIndices [] [] 0 ([vec3.mk 1 2 3], [vec3.mk 4 5 6])).
  apply inverse_of_zero_not_finite. vm_compute. reflexivity.
Defined.

(** ** [getAttributeAccessor], case by case *)

Ltac run_accessor :=
  unfold getAttributeAccessorF, createNormalTypeArray, createTangentAccessor,
    bind, primitiveAt, lift, ret, throw, emit, alloc, pushAttribute, onPrimitive;
  simpl.

Lemma getAttributeAccessorN_missing (depth : nat) (st : State) (i : nat)
    (attributeName : AttributeName) :
  primitiveDatas st !! i = None ->
  getAttributeAccessorN (S depth) i attributeName st = (Throw TypeError, st).
Proof. intros Hp. simpl. run_accessor. rewrite Hp. reflexivity. Qed.

Lemma getAttributeAccessorN_present (depth : nat) (st : State) (i : nat)
    (p : PrimitiveData) (attributeName : AttributeName) (attributeData : AttributeData) :
  primitiveDatas st !! i = Some p ->
  find (named attributeName) (attributeDatas p) = Some attributeData ->
  getAttributeAccessorN (S depth) i attributeName st = (Ret (data attributeData), st).
Proof. intros Hp Hf. simpl. run_accessor. rewrite Hp, Hf. reflexivity. Qed.

Lemma getAttributeAccessorN_normal (depth : nat) (st : State) (i : nat)
    (p : PrimitiveData) :
  primitiveDatas st !! i = Some p ->
  find (named ATTR_NORMAL) (attributeDatas p) = None ->
  getAttributeAccessorN (S depth) i ATTR_NORMAL st =
    match computeNormals p with
    | Ret normalList =>
        let a := mkTypeArray (nextAddr st) (storeNormals normalList) in
        (Ret (Some a),
         mkState (<[i := withAttribute p (mkAttributeData (Some ATTR_NORMAL) (Some a))]>
                    (primitiveDatas st))
                 (S (nextAddr st)) (trace st ++ [NormalsComputed i]))
    | Throw e =>
        (Throw e,
         mkState (primitiveDatas st) (nextAddr st) (trace st ++ [NormalsComputed i]))
    end.
Proof.
  intros Hp Hf. simpl. run_accessor. rewrite Hp, Hf. simpl. rewrite Hp.
  destruct (computeNormals p); simpl; [rewrite Hp|]; reflexivity.
Qed.

Lemma getAttributeAccessorN_tangent (depth : nat) (st : State) (i : nat)
    (p : PrimitiveData) (normalData : AttributeData) :
  primitiveDatas st !! i = Some p ->
  find (named ATTR_TANGENT) (attributeDatas p) = None ->
  find (named ATTR_NORMAL) (attributeDatas p) = Some normalData ->
  getAttributeAccessorN (S (S depth)) i ATTR_TANGENT st =
    match computeTangents p (data normalData) with
    | Ret tangentList =>
        let a := mkTypeArray (nextAddr st) (storeTangents tangentList) in
        (Ret (Some a),
         mkState (<[i := withAttribute p (mkAttributeData (Some ATTR_TANGENT) (Some a))]>
                    (primitiveDatas st))
                 (S (nextAddr st)) (trace st ++ [TangentsComputed i]))
    | Throw e =>
        (Throw e,
         mkState (primitiveDatas st) (nextAddr st) (trace st ++ [TangentsComputed i]))
    end.
Proof.
  intros Hp Ht Hn.
  pose proof (getAttributeAccessorN_present depth st i p ATTR_NORMAL normalData Hp Hn)
    as Hself.
  change (getAttributeAccessorN (S (S depth)) i ATTR_TANGENT st)
    with (getAttributeAccessorF (getAttributeAccessorN (S depth)) i ATTR_TANGENT st).
  unfold getAttributeAccessorF at 1.
  unfold bind at 1, primitiveAt at 1. rewrite Hp.
  unfold bind at 1, lift at 1, onPrimitive at 1. rewrite Ht.
  unfold bind at 1, primitiveAt at 1. rewrite Hp.
  unfold bind at 1, lift at 1, onPrimitive at 1, attributeArray. rewrite Hn.
  unfold bind at 1.
  assert (match data normalData with
          | Some _ => ret (data normalData)
          | None => getAttributeAccessorN (S depth) i ATTR_NORMAL
          end st = (Ret (data normalData), st)) as ->.
  { destruct (data normalData) eqn:Hd; [reflexivity|]. rewrite Hself. reflexivity. }
  unfold createTangentAccessor, bind, primitiveAt, lift, ret, throw, emit, alloc,
    pushAttribute, onPrimitive; simpl.
  rewrite Hp.
  destruct (computeTangents p (data normalData)); simpl; [rewrite Hp|]; reflexivity.
Qed.

Lemma getAttributeAccessorN_tangent_no_normal (depth : nat) (st : State) (i : nat)
    (p : PrimitiveData) :
  primitiveDatas st !! i = Some p ->
  find (named ATTR_TANGENT) (attributeDatas p) = None ->
  find (named ATTR_NORMAL) (attributeDatas p) = None ->
  getAttributeAccessorN (S depth) i ATTR_TANGENT st = (Throw TypeError, st).
Proof.
  intros Hp Ht Hn. simpl.
  unfold getAttributeAccessorF, bind, primitiveAt, lift, onPrimitive.
  rewrite Hp, Ht. simpl. rewrite Hp. simpl.
  unfold attributeArray. rewrite Hn. reflexivity.
Qed.

Lemma getAttributeAccessorN_other (depth : nat) (st : State) (i : nat)
    (p : PrimitiveData) (attributeName : AttributeName) :
  primitiveDatas st !! i = Some p ->
  find (named attributeName) (attributeDatas p) = None ->
  attributeName <> ATTR_NORMAL -> attributeName <> ATTR_TANGENT ->
  getAttributeAccessorN (S depth) i attributeName st = (Throw notSupported, st).
Proof.
  intros Hp Hf Hn Ht. simpl. run_accessor. rewrite Hp, Hf.
  destruct attributeName; try reflexivity; congruence.
Qed.

(** The calls never nest deeper than two: more depth changes nothing. *)
Lemma getAttributeAccessor_depth (depth : nat) (i : nat)
    (attributeName : AttributeName) (st : State) :
  getAttributeAccessorN (S (S depth)) i attributeName st
  = getAttributeAccessor i attributeName st.
Proof.
  unfold getAttributeAccessor.
  destruct (primitiveDatas st !! i) as [p|] eqn:Hp;
    [|rewrite !getAttributeAccessorN_missing by exact Hp; reflexivity].
  destruct (find (named attributeName) (attributeDatas p)) as [ad|] eqn:Hf;
    [rewrite !(getAttributeAccessorN_present _ st i p attributeName ad Hp Hf);
     reflexivity|].
  destruct (decide (attributeName = ATTR_NORMAL)) as [->|Hn];
    [rewrite !(getAttributeAccessorN_normal _ st i p Hp Hf); reflexivity|].
  destruct (decide (attributeName = ATTR_TANGENT)) as [->|Ht].
  - destruct (find (named ATTR_NORMAL) (attributeDatas p)) as [nd|] eqn:Hnd.
    + rewrite (getAttributeAccessorN_tangent depth st i p nd Hp Hf Hnd).
      rewrite (getAttributeAccessorN_tangent 0 st i p nd Hp Hf Hnd). reflexivity.
    + rewrite !(getAttributeAccessorN_tangent_no_normal _ st i p Hp Hf Hnd).
      reflexivity.
  - rewrite !(getAttributeAccessorN_other _ st i p attributeName Hp Hf Hn Ht).
    reflexivity.
Qed.

(** ** Requesting tangents of a primitive without normals *)

(** Without a Tangent entry and without a Normal entry, the request for
    Tangent throws where it reads [.data] of the entry [find] did not
    find: the recursive call that would generate the normals is not
    reached (lemma [getAttributeAccessorN_tangent_no_normal]). *)

(** C1. On a primitive with positions, texture coordinates and indices but
    neither Normal nor Tangent, [getAttributeAccessor(0, Tangent)] throws a
    [TypeError] and leaves the geometry as it was: no normals are
    generated, no tangent generator runs, nothing is appended. *)
Theorem getAttributeAccessor_tangent_needs_normal :
  getAttributeAccessor 0 ATTR_TANGENT bareGeometry = (Throw TypeError, bareGeometry).
Proof.
  apply (getAttributeAccessorN_tangent_no_normal 1 bareGeometry 0 bareTriangle);
    reflexivity.
Qed.

(** The sibling request for Normal on the same primitive does generate and
    store them. *)
Lemma getAttributeAccessor_normal_generated :
  exists a st,
    getAttributeAccessor 0 ATTR_NORMAL bareGeometry = (Ret (Some a), st)
    /\ elems a = triangleNormals
    /\ option_map attributeDatas (primitiveDatas st !! 0%nat)
       = Some (attributeDatas bareTriangle
               ++ [mkAttributeData (Some ATTR_NORMAL) (Some a)]).
Proof.
  eexists _, _. split; [vm_compute; reflexivity|]. split; reflexivity.
Qed.

(** ** Memoization *)

Lemma find_app_None {A} (f : A -> bool) (xs ys : list A) :
  find f xs = None -> find f (xs ++ ys) = find f ys.
Proof.
  induction xs as [|x xs IH]; simpl; [reflexivity|].
  destruct (f x); [discriminate | exact IH].
Qed.

Lemma find_app_Some {A} (f : A -> bool) (xs ys : list A) (x : A) :
  find f xs = Some x -> find f (xs ++ ys) = Some x.
Proof.
  induction xs as [|x' xs IH]; simpl; [discriminate|].
  destruct (f x'); [trivial | exact IH].
Qed.



(** ** Lengths of the arrays *)

Lemma addInto_length (vs vs' : list vec3.t) (index : value) (d : vec3.t) :
  addInto vs index d = Ret vs' -> length vs' = length vs.
Proof.
  unfold addInto. destruct index as [k|]; [|discriminate].
  destruct (slot (length vs) k) as [n|]; [|discriminate].
  destruct (vs !! n); [|discriminate].
  intros [= <-]. apply length_insert.
Qed.


Lemma computeNormals_length (p : PrimitiveData) (positions : TypeArray)
    (normalList : list vec3.t) :
  attributeArray ATTR_POSITION p = Ret (Some positions) ->
  computeNormals p = Ret normalList ->
  length normalList = length (upto3 (length (elems positions))).
Proof.
  intros Hpos. unfold computeNormals. rewrite Hpos; simpl.
  destruct (nonNull (indices p)) as [indicesArray|]; simpl; [|discriminate].
  destruct (foldM _ _ _) as [accumulated|] eqn:Hloop; simpl; [|discriminate].
  intros [= <-]. rewrite length_map.
  apply (foldM_invariant _
           (fun vs => length vs = length (upto3 (length (elems positions))))
           _ _ _) in Hloop; [exact Hloop| |apply length_map].
  intros vs i vs' Hstep Hlen. unfold normalsOfTriangle in Hstep.
  repeat (apply obind_Ret in Hstep; destruct Hstep as (? & ?%addInto_length & Hstep)).
  apply addInto_length in Hstep. congruence.
Qed.

Lemma computeTangents_length (p : PrimitiveData) (positions : TypeArray)
    (normalArray : option TypeArray) (tangentList : list vec4.t) :
  attributeArray ATTR_POSITION p = Ret (Some positions) ->
  computeTangents p normalArray = Ret tangentList ->
  length tangentList = length (upto3 (length (elems positions))).
Proof.
  intros Hpos. unfold computeTangents. rewrite Hpos; simpl.
  intros Hrun.
  repeat (apply obind_Ret in Hrun; destruct Hrun as (? & _ & Hrun)).
  apply mapM_length in Hrun. exact Hrun.
Qed.





(** ** Construction from the source description *)





Section Construction.
Context {Accessor : Type}.
Variable accessorToTypeArray : option Accessor -> option (list float).




End Construction.



End GeometryFacts.

(* ================================================================== *)
(** * Properties of the metadata holder *)

Module MetaFacts.
Import OutcomeFacts CocosMesh.
Local Open Scope outcome_scope.

#[local] Instance string_eq_dec : EqDecision string := String.string_dec.

(** ** Property keys *)

Lemma index_of_key_of_nat (n : nat) : index_of_key (key_of_nat n) = Some n.
Proof.
  unfold index_of_key, key_of_nat.
  rewrite NilEmpty.usu, DecimalNat.Unsigned.of_to, String.eqb_refl. reflexivity.
Qed.

Lemma index_of_key_Some (k : string) (n : nat) :
  index_of_key k = Some n -> k = key_of_nat n.
Proof.
  unfold index_of_key. destruct (NilEmpty.uint_of_string k) as [u|]; [|discriminate].
  destruct (String.eqb_spec (key_of_nat (Nat.of_uint u)) k) as [Heq|]; [|discriminate].
  intros [= <-]. symmetry; exact Heq.
Qed.


Lemma assoc_set_eq (k : string) (x : jsval) (props : list (string * jsval)) :
  assoc k (assoc_set k x props) = Some x.
Proof.
  induction props as [|[k' v] props IH]; simpl.
  - rewrite String.eqb_refl. reflexivity.
  - destruct (String.eqb k' k) eqn:Hk; simpl; rewrite Hk; [reflexivity | exact IH].
Qed.

Lemma assoc_set_ne (k k' : string) (x : jsval) (props : list (string * jsval)) :
  k' <> k -> assoc k' (assoc_set k x props) = assoc k' props.
Proof.
  intros Hne. induction props as [|[k0 v] props IH]; simpl.
  - destruct (String.eqb_spec k k'); [congruence | reflexivity].
  - destruct (String.eqb_spec k0 k) as [->|]; simpl.
    + destruct (String.eqb_spec k k'); [congruence | reflexivity].
    + destruct (String.eqb k0 k'); [reflexivity | exact IH].
Qed.

(** ** One write *)

Lemma setIndex_isObject (v v' : jsval) (n : nat) (x : jsval) :
  setIndex v n x = Ret v' -> isObject v = true /\ isObject v' = true.
Proof. destruct v; simpl; try discriminate; intros [= <-]; split; reflexivity. Qed.



(** ** Paths *)

Lemma getPath_app (path1 path2 : list string) (doc : jsval) :
  getPath (path1 ++ path2) doc = obind (getPath path1 doc) (getPath path2).
Proof.
  unfold getPath. revert doc; induction path1 as [|k path1 IH]; intros doc; simpl;
    [reflexivity|].
  destruct (getProp doc k); simpl; [apply IH | reflexivity].
Qed.

(** From a primitive value no path leads to an array or an object. *)
Lemma getProp_primitive (v v' : jsval) (k : string) :
  isObject v = false -> getProp v k = Ret v' -> isObject v' = false.
Proof.
  destruct v; simpl; try discriminate; intros _ [= <-]; try reflexivity.
  destruct (index_of_key k) as [n|]; [|reflexivity].
  destruct (String.get n s); reflexivity.
Qed.

Lemma getPath_primitive (path : list string) (v v' : jsval) :
  isObject v = false -> getPath path v = Ret v' -> isObject v' = false.
Proof.
  unfold getPath. revert v; induction path as [|k path IH]; intros v Hv; simpl.
  - intros [= <-]; exact Hv.
  - destruct (getProp v k) as [v1|] eqn:Hk; simpl; [|discriminate].
    apply IH. exact (getProp_primitive v v1 k Hv Hk).
Qed.

Lemma getPath_cons (k : string) (path : list string) (doc : jsval) :
  getPath (k :: path) doc = obind (getProp doc k) (getPath path).
Proof. reflexivity. Qed.

(** Reading back the node that was replaced. *)
Lemma getPath_replaceAt_eq (path : list nat) (doc old new : jsval) :
  getPath (keys path) doc = Ret old -> isObject old = true ->
  getPath (keys path) (replaceAt path new doc) = Ret new.
Proof.
  revert doc; induction path as [|n path IH]; intros doc Hget Hold; [reflexivity|].
  change (keys (n :: path)) with (key_of_nat n :: keys path) in *.
  rewrite getPath_cons in Hget |- *.
  destruct (getProp doc (key_of_nat n)) as [child|] eqn:Hchild; [|discriminate].
  simpl in Hget.
  assert (isObject child = true) as Hobj.
  { destruct (isObject child) eqn:Hc; [reflexivity|].
    rewrite (getPath_primitive _ _ _ Hc Hget) in Hold. discriminate. }
  assert (isObject doc = true) as Hdoc.
  { destruct (isObject doc) eqn:Hc; [reflexivity|].
    rewrite (getProp_primitive _ _ _ Hc Hchild) in Hobj. discriminate. }
  destruct doc; try discriminate; simpl in Hchild; injection Hchild as <-.
  - rewrite index_of_key_of_nat in *.
    simpl. destruct (items !! n) as [child|] eqn:Hn; [|discriminate].
    simpl in *. rewrite index_of_key_of_nat.
    rewrite list_lookup_insert_eq by (apply lookup_lt_Some in Hn; exact Hn).
    simpl. apply IH; assumption.
  - simpl. destruct (assoc (key_of_nat n) props) as [child|] eqn:Hn; [|discriminate].
    simpl in *. rewrite assoc_set_eq. simpl. apply IH; assumption.
Qed.

Lemma apart_cons (k : string) (path1 path2 : list string) :
  apart (k :: path1) (k :: path2) -> apart path1 path2.
Proof.
  intros [H1 H2]. split; intros Hp; [apply H1 | apply H2];
    apply prefix_cons; exact Hp.
Qed.

(** Replacing a node leaves every field apart from it as it was. *)
Lemma getPath_replaceAt_apart (path : list nat) (q : list string) (doc new : jsval) :
  apart (keys path) q ->
  getPath q (replaceAt path new doc) = getPath q doc.
Proof.
  revert q doc; induction path as [|n path IH]; intros q doc Hapart.
  { destruct Hapart as [H _]. exfalso. apply H. apply prefix_nil. }
  destruct q as [|k q].
  { destruct Hapart as [_ H]. exfalso. apply H. apply prefix_nil. }
  change (keys (n :: path)) with (key_of_nat n :: keys path) in Hapart.
  rewrite !getPath_cons.
  destruct (decide (k = key_of_nat n)) as [->|Hne].
  - apply apart_cons in Hapart.
    destruct doc; try reflexivity.
    + simpl replaceAt. destruct (items !! n) as [child|] eqn:Hn; [|reflexivity].
      simpl. rewrite index_of_key_of_nat.
      rewrite list_lookup_insert_eq by (apply lookup_lt_Some in Hn; exact Hn).
      rewrite Hn. simpl. apply IH. exact Hapart.
    + simpl replaceAt.
      destruct (assoc (key_of_nat n) props) as [child|] eqn:Hn; [|reflexivity].
      simpl. rewrite assoc_set_eq, Hn. simpl. apply IH. exact Hapart.
  - f_equal.
    destruct doc; try reflexivity.
    + simpl replaceAt. destruct (items !! n) as [child|] eqn:Hn; [|reflexivity].
      simpl. destruct (index_of_key k) as [m|] eqn:Hk; [|reflexivity].
      rewrite list_lookup_insert_ne; [reflexivity|].
      intros ->. apply Hne. apply index_of_key_Some, Hk.
    + simpl replaceAt.
      destruct (assoc (key_of_nat n) props) as [child|] eqn:Hn; [|reflexivity].
      simpl. rewrite assoc_set_ne by exact Hne. reflexivity.
Qed.

(** ** The setters *)

Lemma key_of_nat_inj (n m : nat) : key_of_nat n = key_of_nat m -> n = m.
Proof.
  intros Heq. pose proof (index_of_key_of_nat n) as Hn.
  rewrite Heq, index_of_key_of_nat in Hn. congruence.
Qed.


(** The fields of the holder, as paths of the document. *)
Lemma binField_path (field : string) (this : CocosMeshMeta) :
  binField field this
  = getPath [key_of_nat 5; key_of_nat 0; key_of_nat 3; key_of_nat 0; field] (data this).
Proof.
  unfold binField, getBin, getIndex. rewrite getPath_cons.
  destruct (getProp (data this) (key_of_nat 5)) as [d5|]; cbn [obind]; [|reflexivity].
  rewrite getPath_cons.
  destruct (getProp d5 (key_of_nat 0)) as [d50|]; cbn [obind]; [|reflexivity].
  rewrite getPath_cons.
  destruct (getProp d50 (key_of_nat 3)) as [bin|]; cbn [obind]; [|reflexivity].
  rewrite getPath_cons.
  destruct (getProp bin (key_of_nat 0)) as [bin0|]; cbn [obind]; [|reflexivity].
  rewrite getPath_cons.
  destruct (getProp bin0 field); reflexivity.
Qed.


Ltac solve_apart :=
  split; intros [rest Hrest]; vm_compute in Hrest; congruence.



End MetaFacts.

(* ================================================================== *)
(** * Properties of the buffer decoder *)

Module DecoderFacts.
Import OutcomeFacts CocosMesh.
Local Open Scope outcome_scope.

Section Decoder.
Context `{Cocos}.

(** What the two nested loops leave in the storage of an attribute. *)
Lemma decode_loops (reader : option (nat -> outcome float))
    (ctor : TypedArrayConstructor) (vertexCount componentCount inputStride : nat)
    (storage : list float) :
  foldM (fun storage iVertex =>
           foldM (fun storage iComponent =>
                    readInto reader ctor storage
                      (componentCount * iVertex + iComponent)
                      (inputStride * iVertex + BYTES_PER_ELEMENT ctor * iComponent))
             (seq 0 componentCount) storage)
    (seq 0 vertexCount)
    (replicate (vertexCount * componentCount) 0%float)
  = Ret storage ->
  length storage = (vertexCount * componentCount)%nat
  /\ forall v c, (v < vertexCount)%nat -> (c < componentCount)%nat ->
       exists read scalar,
         reader = Some read
         /\ read (inputStride * v + BYTES_PER_ELEMENT ctor * c)%nat = Ret scalar
         /\ storage !! (componentCount * v + c)%nat = Some (store ctor scalar).
Proof.
  set (filled := fun (m j : nat) (st : list float) =>
         length st = (vertexCount * componentCount)%nat
         /\ forall v c, (c < componentCount)%nat ->
              (v < m \/ (v = m /\ c < j))%nat ->
              exists read scalar,
                reader = Some read
                /\ read (inputStride * v + BYTES_PER_ELEMENT ctor * c)%nat = Ret scalar
                /\ st !! (componentCount * v + c)%nat = Some (store ctor scalar)).
  intros Hrun.
  apply (foldM_seq_invariant _ (fun m st => filled m 0%nat st)) in Hrun.
  - destruct Hrun as [Hlen Hall]. split; [exact Hlen|].
    intros v c Hv Hc. apply Hall; [exact Hc | left; exact Hv].
  - split; [apply length_replicate | intros; lia].
  - intros m st st' Hm Hst Hinner.
    apply (foldM_seq_invariant _ (fun j st => filled m j st)) in Hinner.
    + destruct Hinner as [Hlen Hall]. split; [exact Hlen|].
      intros v c Hc Hv. apply Hall; [exact Hc|]. lia.
    + exact Hst.
    + intros j t t' Hj [Hlen Hall] Hread.
      unfold readInto in Hread. destruct reader as [read|]; [|discriminate].
      apply obind_Ret in Hread. destruct Hread as (scalar & Hscalar & [= <-]).
      split; [rewrite length_insert; exact Hlen|].
      intros v c Hc Hv.
      destruct (decide (v = m /\ c = j)) as [[-> ->]|Hother].
      * exists read, scalar. split; [reflexivity|]. split; [exact Hscalar|].
        apply list_lookup_insert_eq. nia.
      * destruct (Hall v c Hc) as (read' & scalar' & Hr & Hs & Hget); [lia|].
        exists read', scalar'. split; [exact Hr|]. split; [exact Hs|].
        rewrite list_lookup_insert_ne; [exact Hget|]. nia.
Qed.

Lemma decodeAttribute_spec (arrayBuffer : list Byte.byte)
    (vertexBundle : IVertexBundle) (ia : nat) (attr : Attribute)
    (attributeValue : AttributeValue) :
  attributes vertexBundle !! ia = Some attr ->
  decodeAttribute arrayBuffer vertexBundle ia = Ret attributeValue ->
  attribute attributeValue = attr
  /\ length (values attributeValue)
     = (view_count (view vertexBundle) * count (FormatInfos (format attr)))%nat
  /\ forall v c,
       (v < view_count (view vertexBundle))%nat ->
       (c < count (FormatInfos (format attr)))%nat ->
       exists scalar,
         getter (format attr) arrayBuffer
           (view_offset (view vertexBundle) + getOffset (attributes vertexBundle) ia
            + v * view_stride (view vertexBundle)
            + c * BYTES_PER_ELEMENT (getTypedArrayConstructor (FormatInfos (format attr))))
         = Ret scalar
         /\ values attributeValue !! (v * count (FormatInfos (format attr)) + c)%nat
            = Some (store (getTypedArrayConstructor (FormatInfos (format attr))) scalar).
Proof.
  intros Hattr. unfold decodeAttribute. rewrite Hattr.
  unfold new_DataView. destruct (decide _) as [Hin|]; [|discriminate].
  cbn [obind]. intros Hrun.
  apply obind_Ret in Hrun. destruct Hrun as (storage & Hloops & [= <-]).
  apply decode_loops in Hloops. destruct Hloops as [Hlen Hall].
  simpl. split; [reflexivity|]. split; [exact Hlen|].
  intros v c Hv Hc. destruct (Hall v c Hv Hc) as (read & scalar & Hreader & Hread & Hget).
  exists scalar. unfold getReader in Hreader.
  destruct (readable (format attr)); [|discriminate].
  injection Hreader as <-. simpl in Hread. split.
  - rewrite <- Hread. f_equal. lia.
  - rewrite <- Hget. f_equal. lia.
Qed.

(** C7. When the constructor of [CocosMesh] returns, every attribute of
    every vertex bundle [{offset, stride, count, attributes}] has a dense
    array of [count * cc] elements, [cc] being the component count of its
    format, and the element [v * cc + c] of that array is the scalar that
    the getter of the format reads in the buffer at the byte position
    [offset + attrOffset + v * stride + c * componentSize] (the storage type
    of the format holding the scalars of the format as they are). *)
Theorem decoder_dense_output (arrayBuffer : list Byte.byte)
    (vertexBundles : list IVertexBundle) (primitives : list ISubMesh)
    (mesh : CocosMesh.t) (iv ia : nat) (vertexBundle : IVertexBundle)
    (attr : Attribute) :
  (forall format position scalar,
      getter format arrayBuffer position = Ret scalar ->
      store (getTypedArrayConstructor (FormatInfos format)) scalar = scalar) ->
  new_CocosMesh arrayBuffer vertexBundles primitives = Ret mesh ->
  vertexBundles !! iv = Some vertexBundle ->
  attributes vertexBundle !! ia = Some attr ->
  exists bundle attributeValue,
    bundles mesh !! iv = Some bundle
    /\ attributeValues bundle !! ia = Some attributeValue
    /\ attribute attributeValue = attr
    /\ length (values attributeValue)
       = (view_count (view vertexBundle) * count (FormatInfos (format attr)))%nat
    /\ forall v c,
         (v < view_count (view vertexBundle))%nat ->
         (c < count (FormatInfos (format attr)))%nat ->
         exists scalar,
           getter (format attr) arrayBuffer
             (view_offset (view vertexBundle) + getOffset (attributes vertexBundle) ia
              + v * view_stride (view vertexBundle)
              + c * BYTES_PER_ELEMENT (getTypedArrayConstructor (FormatInfos (format attr))))
           = Ret scalar
           /\ values attributeValue !! (v * count (FormatInfos (format attr)) + c)%nat
              = Some scalar.
Proof.
  intros Hexact Hrun Hiv Hia. unfold new_CocosMesh in Hrun.
  apply obind_Ret in Hrun. destruct Hrun as (decoded & Hbundles & Hrun).
  apply obind_Ret in Hrun. destruct Hrun as (indexArrays & _ & [= <-]).
  destruct (mapM_lookup_Some _ _ _ iv vertexBundle Hbundles Hiv)
    as (bundle & Hbundle & Hdecode).
  unfold decodeBundle in Hdecode.
  apply obind_Ret in Hdecode. destruct Hdecode as (avs & Havs & [= <-]).
  assert (seq 0 (length (attributes vertexBundle)) !! ia = Some ia) as Hseq.
  { apply lookup_seq. split; [reflexivity|]. apply lookup_lt_Some in Hia. exact Hia. }
  destruct (mapM_lookup_Some _ _ _ ia ia Havs Hseq) as (av & Hav & Hattr).
  destruct (decodeAttribute_spec _ _ _ _ _ Hia Hattr) as (Hname & Hlen & Hall).
  exists (mkVertexBundle avs), av. simpl.
  split; [exact Hbundle|]. split; [exact Hav|]. split; [exact Hname|].
  split; [exact Hlen|].
  intros v c Hv Hc. destruct (Hall v c Hv Hc) as (scalar & Hread & Hget).
  exists scalar. split; [exact Hread|].
  rewrite Hget. f_equal. exact (Hexact _ _ _ Hread).
Qed.

End Decoder.

Lemma decoder_dense_output_witness :
  exists bundle attributeValue,
    bundles MeshSamples.sampleMesh !! 0%nat = Some bundle
    /\ attributeValues bundle !! 0%nat = Some attributeValue
    /\ attribute attributeValue = MeshSamples.RGB8UI
    /\ length (values attributeValue) = (2 * 3)%nat
    /\ forall v c, (v < 2)%nat -> (c < 3)%nat ->
         exists scalar,
           @getter MeshSamples.byteCocos MeshSamples.RGB8UI MeshSamples.sampleBuffer
             (0 + 0 + v * 3 + c * 1)%nat = Ret scalar
           /\ values attributeValue !! (v * 3 + c)%nat = Some scalar.
Proof.
  apply (@decoder_dense_output MeshSamples.byteCocos MeshSamples.sampleBuffer
           [MeshSamples.sampleBundle] [] MeshSamples.sampleMesh 0 0
           MeshSamples.sampleBundle MeshSamples.RGB8UI).
  - intros format position scalar _. reflexivity.
  - vm_compute. reflexivity.
  - reflexivity.
  - reflexivity.
Defined.

End DecoderFacts.

(* ================================================================== *)
(** * Further properties of [Geometry.ts] *)

Module GeometryExtras.
Import OutcomeFacts Geometry Samples GeometryFacts.
Local Open Scope float_scope.

(** ** Construction *)

(** [joints] of every primitive: the node identifiers of the first skin. *)
Lemma addPrimitive_fold_fields {Accessor : Type}
    (accessorToTypeArray : option Accessor -> option (list float))
    (joints : option (list float))
    (primitives : list (glTFLoader.MeshPrimitive Accessor)) (geometry : State) :
  exists added next',
    fold_left (addPrimitive accessorToTypeArray joints) primitives geometry
    = mkState (primitiveDatas geometry ++ added) next' (trace geometry)
    /\ Forall2 (fun primitive primitiveData =>
                  Geometry.boundingBox primitiveData = glTFLoader.boundingBox primitive
                  /\ option_map elems (Geometry.indices primitiveData)
                     = accessorToTypeArray (glTFLoader.indices primitive)
                  /\ Geometry.joints primitiveData = joints)
         primitives added.
Proof.
  revert geometry; induction primitives as [|primitive primitives IH];
    intros geometry; simpl.
  - exists [], (nextAddr geometry). rewrite app_nil_r.
    destruct geometry; split; [reflexivity | constructor].
  - unfold addPrimitive at 2, load at 1.
    destruct (accessorToTypeArray (glTFLoader.indices primitive)) as [contents|] eqn:Hload;
      destruct (fold_left _ (glTFLoader.attributes primitive) _) as [attrs next1];
      match goal with
      | |- context [fold_left _ primitives ?g] =>
          destruct (IH g) as (added & next' & -> & Hall)
      end;
      simpl; eexists (_ :: added), next';
      (split; [rewrite <- app_assoc; reflexivity|]);
      (constructor; [|exact Hall]); simpl; rewrite ?Hload; auto.
Qed.

(** X1. [creatFromGLTF] returns a geometry exactly for a source with one
    mesh: with no mesh it throws a [TypeError] (reading the primitives of an
    undefined mesh), with two or more it throws the string
    "Multiple Mesh is not supported.". *)
Theorem creatFromGLTF_mesh_count {Accessor : Type}
    (accessorToTypeArray : option Accessor -> option (list float))
    (gltf : glTFLoader.GLTF Accessor) :
  match glTFLoader.meshes gltf with
  | [] => creatFromGLTF accessorToTypeArray gltf = Throw TypeError
  | [_] => exists geometry, creatFromGLTF accessorToTypeArray gltf = Ret geometry
  | _ :: _ :: _ =>
      creatFromGLTF accessorToTypeArray gltf
      = Throw (Thrown "Multiple Mesh is not supported.")
  end.
Proof.
  unfold creatFromGLTF.
  destruct (glTFLoader.meshes gltf) as [|mesh [|mesh' meshes]].
  - reflexivity.
  - eexists; reflexivity.
  - case_decide as Hlt; [reflexivity|]. exfalso; apply Hlt; simpl; lia.
Qed.

(** X2. From a source with one mesh, [creatFromGLTF] builds one primitive
    per source primitive, in order, each with the bounding box of its source
    primitive, the index array the loader gives for its [indices], and as
    [joints] the node identifiers of the first skin ([null] without skins);
    no generator has run. *)
Theorem creatFromGLTF_primitives {Accessor : Type}
    (accessorToTypeArray : option Accessor -> option (list float))
    (gltf : glTFLoader.GLTF Accessor) (mesh : glTFLoader.Mesh Accessor) :
  glTFLoader.meshes gltf = [mesh] ->
  exists geometry,
    creatFromGLTF accessorToTypeArray gltf = Ret geometry
    /\ length (primitiveDatas geometry) = length (glTFLoader.primitives mesh)
    /\ trace geometry = []
    /\ Forall2 (fun primitive primitiveData =>
                  Geometry.boundingBox primitiveData = glTFLoader.boundingBox primitive
                  /\ option_map elems (Geometry.indices primitiveData)
                     = accessorToTypeArray (glTFLoader.indices primitive)
                  /\ Geometry.joints primitiveData
                     = match glTFLoader.skins gltf with
                       | None | Some [] => None
                       | Some (skin :: _) =>
                           Some (map glTFLoader.nodeID (glTFLoader.joints skin))
                       end)
         (glTFLoader.primitives mesh) (primitiveDatas geometry).
Proof.
  intros Hmeshes. unfold creatFromGLTF. rewrite Hmeshes. simpl.
  match goal with
  | |- context [fold_left (addPrimitive _ ?joints) _ ?g] =>
      destruct (addPrimitive_fold_fields accessorToTypeArray joints
                  (glTFLoader.primitives mesh) g) as (added & next & -> & Hall)
  end.
  eexists. split; [reflexivity|]. simpl.
  split; [symmetry; exact (Forall2_length _ _ _ Hall)|].
  split; [reflexivity | exact Hall].
Qed.

Lemma creatFromGLTF_primitives_witness :
  exists geometry,
    creatFromGLTF plainLoader skinnedSource = Ret geometry
    /\ length (primitiveDatas geometry) = 1%nat
    /\ trace geometry = []
    /\ Forall2 (fun primitive primitiveData =>
                  Geometry.boundingBox primitiveData = glTFLoader.boundingBox primitive
                  /\ option_map elems (Geometry.indices primitiveData)
                     = plainLoader (glTFLoader.indices primitive)
                  /\ Geometry.joints primitiveData = Some [4; 7])
         [glTFLoader.mkMeshPrimitive (Some triangleIndices)
            [("POSITION"%string, trianglePositions)]
            (Some (glTFLoader.mkBoundingBox (vec3.mk 0 0 0) (vec3.mk 1 1 0)))]
         (primitiveDatas geometry).
Proof.
  apply (creatFromGLTF_primitives plainLoader skinnedSource
           (glTFLoader.mkMesh
              [glTFLoader.mkMeshPrimitive (Some triangleIndices)
                 [("POSITION"%string, trianglePositions)]
                 (Some (glTFLoader.mkBoundingBox (vec3.mk 0 0 0) (vec3.mk 1 1 0)))])).
  reflexivity.
Defined.

(** ** The bounding volume *)

(** The fold of one box into the running bounds. *)
Lemma boundsOfPrimitive_boxed (bounds : vec3.t * vec3.t) (p : PrimitiveData)
    (box : glTFLoader.BoundingBox) :
  Geometry.boundingBox p = Some box ->
  boundsOfPrimitive bounds p
  = Ret (vec3.min (fst bounds) (glTFLoader.min box),
         vec3.max (snd bounds) (glTFLoader.max box)).
Proof. intros Hbox. unfold boundsOfPrimitive. rewrite Hbox. reflexivity. Qed.

Lemma foldM_boxed (ps : list PrimitiveData) (boxes : list glTFLoader.BoundingBox)
    (bounds : vec3.t * vec3.t) :
  map Geometry.boundingBox ps = map Some boxes ->
  foldM boundsOfPrimitive ps bounds
  = Ret (fold_left
           (fun b box => (vec3.min (fst b) (glTFLoader.min box),
                          vec3.max (snd b) (glTFLoader.max box)))
           boxes bounds).
Proof.
  revert boxes bounds; induction ps as [|p ps IH]; intros [|box boxes] bounds;
    simpl; try discriminate; [reflexivity|].
  intros [= Hbox Hrest]. rewrite (boundsOfPrimitive_boxed _ _ _ Hbox). simpl.
  apply IH. exact Hrest.
Qed.

(** X3. On a geometry whose primitives all carry a precomputed box,
    [getBoundPositions] never throws and never looks at the attributes: it
    returns the fold of the boxes, component-wise minimum and maximum, from
    the seed (+infinity, -infinity); for the empty geometry that is the seed
    itself. *)
Theorem getBoundPositions_boxed (ps : list PrimitiveData)
    (boxes : list glTFLoader.BoundingBox) :
  map Geometry.boundingBox ps = map Some boxes ->
  getBoundPositions ps
  = Ret (fold_left
           (fun b box => (vec3.min (fst b) (glTFLoader.min box),
                          vec3.max (snd b) (glTFLoader.max box)))
           boxes boundsSeed).
Proof. apply foldM_boxed. Qed.

Lemma getBoundPositions_boxed_witness :
  getBoundPositions [boxedA; boxedA]
  = Ret (fold_left
           (fun b box => (vec3.min (fst b) (glTFLoader.min box),
                          vec3.max (snd b) (glTFLoader.max box)))
           [glTFLoader.mkBoundingBox (vec3.mk (-1) (-1) (-1)) (vec3.mk 1 1 1);
            glTFLoader.mkBoundingBox (vec3.mk (-1) (-1) (-1)) (vec3.mk 1 1 1)]
           boundsSeed).
Proof.
  apply (getBoundPositions_boxed [boxedA; boxedA]
           [glTFLoader.mkBoundingBox (vec3.mk (-1) (-1) (-1)) (vec3.mk 1 1 1);
            glTFLoader.mkBoundingBox (vec3.mk (-1) (-1) (-1)) (vec3.mk 1 1 1)]).
  reflexivity.
Defined.

(** X4. [getBoundPositions] throws a [TypeError] at the first primitive
    that has neither a box nor a Position entry (or whose Position entry has
    no array), whatever follows it. *)
Theorem getBoundPositions_needs_position (before after : list PrimitiveData)
    (boxes : list glTFLoader.BoundingBox) (p : PrimitiveData) :
  map Geometry.boundingBox before = map Some boxes ->
  Geometry.boundingBox p = None ->
  attributeArray ATTR_POSITION p = Throw TypeError
  \/ attributeArray ATTR_POSITION p = Ret None ->
  getBoundPositions (before ++ p :: after) = Throw TypeError.
Proof.
  intros Hboxes Hbox Hpos. unfold getBoundPositions.
  rewrite foldM_app, (foldM_boxed _ _ _ Hboxes). simpl.
  unfold boundsOfPrimitive. rewrite Hbox.
  destruct Hpos as [-> | ->]; reflexivity.
Qed.

Lemma getBoundPositions_needs_position_witness :
  getBoundPositions ([boxedA] ++ emptyPrimitive :: [unboxedB]) = Throw TypeError.
Proof.
  apply (getBoundPositions_needs_position [boxedA] [unboxedB]
           [glTFLoader.mkBoundingBox (vec3.mk (-1) (-1) (-1)) (vec3.mk 1 1 1)]
           emptyPrimitive).
  - reflexivity.
  - reflexivity.
  - left. reflexivity.
Defined.

(** ** Exceptions *)


Local Open Scope outcome_scope.











(** ** Lookup by name *)

Lemma find_first {A} (f : A -> bool) (before after : list A) (x : A) :
  Forall (fun y => f y = false) before -> f x = true ->
  find f (before ++ x :: after) = Some x.
Proof.
  intros Hbefore Hx. induction Hbefore as [|y before Hy _ IH]; simpl.
  - rewrite Hx. reflexivity.
  - rewrite Hy. exact IH.
Qed.

(** X6. The lookup is by name, first match: whatever the requested name
    (one that can be generated or not), the request returns the array of the
    first entry of that name, entries after it being shadowed, and changes
    nothing. *)
Theorem getAttributeAccessor_first_match (st : State) (i : nat) (p : PrimitiveData)
    (tag : AttributeName) (before after : list AttributeData)
    (attributeData : AttributeData) :
  primitiveDatas st !! i = Some p ->
  attributeDatas p = before ++ attributeData :: after ->
  Forall (fun x => name x <> Some tag) before ->
  name attributeData = Some tag ->
  getAttributeAccessor i tag st = (Ret (data attributeData), st).
Proof.
  intros Hp Hsplit Hbefore Hname.
  apply (getAttributeAccessorN_present _ st i p tag attributeData Hp).
  rewrite Hsplit. apply find_first.
  - eapply Forall_impl; [exact Hbefore|]. intros x Hx.
    apply bool_decide_eq_false. exact Hx.
  - apply bool_decide_eq_true. exact Hname.
Qed.

Lemma getAttributeAccessor_first_match_witness :
  getAttributeAccessor 0 ATTR_TEX_COORD
    (mkState [withAttribute shadedTriangle (texCoord 9 collapsedCoords)] 10 [])
  = (Ret (Some (mkTypeArray 2 triangleCoords)),
     mkState [withAttribute shadedTriangle (texCoord 9 collapsedCoords)] 10 []).
Proof.
  apply (getAttributeAccessor_first_match
           (mkState [withAttribute shadedTriangle (texCoord 9 collapsedCoords)] 10 [])
           0 (withAttribute shadedTriangle (texCoord 9 collapsedCoords))
           ATTR_TEX_COORD
           [position 1 trianglePositions]
           [normal 3 triangleNormals; texCoord 9 collapsedCoords]
           (texCoord 2 triangleCoords)).
  - reflexivity.
  - reflexivity.
  - repeat constructor. discriminate.
  - reflexivity.
Defined.

(** ** What a request changes *)

(** X7. A request that returns only ever appends: the geometry keeps its
    primitives, every primitive other than the requested one is untouched,
    and the requested one keeps its indices, joints, box and entries, with at
    most one entry added at the end, named as requested and holding the
    array returned. *)
Theorem getAttributeAccessor_appends (st st' : State) (i : nat)
    (tag : AttributeName) (a : option TypeArray) :
  getAttributeAccessor i tag st = (Ret a, st') ->
  length (primitiveDatas st') = length (primitiveDatas st)
  /\ (forall j, j <> i -> primitiveDatas st' !! j = primitiveDatas st !! j)
  /\ exists p p' added,
       primitiveDatas st !! i = Some p
       /\ primitiveDatas st' !! i = Some p'
       /\ indices p' = indices p /\ joints p' = joints p
       /\ boundingBox p' = boundingBox p
       /\ attributeDatas p' = attributeDatas p ++ added
       /\ (added = [] \/ added = [mkAttributeData (Some tag) a]).
Proof.
  unfold getAttributeAccessor. intros Hrun.
  destruct (primitiveDatas st !! i) as [p|] eqn:Hp;
    [|rewrite getAttributeAccessorN_missing in Hrun by exact Hp; discriminate].
  assert (forall entry,
            length (<[i := withAttribute p entry]> (primitiveDatas st))
            = length (primitiveDatas st)
            /\ (forall j, j <> i ->
                  <[i := withAttribute p entry]> (primitiveDatas st) !! j
                  = primitiveDatas st !! j)
            /\ <[i := withAttribute p entry]> (primitiveDatas st) !! i
               = Some (withAttribute p entry)) as Hpush.
  { intros entry. split; [apply length_insert|]. split.
    - intros j Hj. apply list_lookup_insert_ne. congruence.
    - apply list_lookup_insert_eq. apply lookup_lt_Some in Hp. exact Hp. }
  destruct (find (named tag) (attributeDatas p)) as [ad|] eqn:Hf.
  { rewrite (getAttributeAccessorN_present _ st i p _ ad Hp Hf) in Hrun.
    injection Hrun as <- <-. split; [reflexivity|]. split; [reflexivity|].
    exists p, p, []. rewrite app_nil_r. auto 10. }
  destruct (decide (tag = ATTR_NORMAL)) as [->|Hn].
  { rewrite (getAttributeAccessorN_normal _ st i p Hp Hf) in Hrun.
    destruct (computeNormals p) as [normalList|]; [|discriminate].
    simpl in Hrun. injection Hrun as <- <-. simpl.
    match goal with
    | |- context [withAttribute p ?entry] =>
        destruct (Hpush entry) as (Hlen & Hother & Hsame)
    end.
    split; [exact Hlen|]. split; [exact Hother|].
    eexists p, _, _. split; [reflexivity|]. split; [exact Hsame|]. simpl. auto 10. }
  destruct (decide (tag = ATTR_TANGENT)) as [->|Ht];
    [|rewrite (getAttributeAccessorN_other _ st i p tag Hp Hf Hn Ht) in Hrun;
      discriminate].
  destruct (find (named ATTR_NORMAL) (attributeDatas p)) as [nd|] eqn:Hnd;
    [|rewrite (getAttributeAccessorN_tangent_no_normal _ st i p Hp Hf Hnd) in Hrun;
      discriminate].
  rewrite (getAttributeAccessorN_tangent _ st i p nd Hp Hf Hnd) in Hrun.
  destruct (computeTangents p (data nd)) as [tangentList|]; [|discriminate].
  simpl in Hrun. injection Hrun as <- <-. simpl.
  match goal with
  | |- context [withAttribute p ?entry] =>
      destruct (Hpush entry) as (Hlen & Hother & Hsame)
  end.
  split; [exact Hlen|]. split; [exact Hother|].
  eexists p, _, _. split; [reflexivity|]. split; [exact Hsame|]. simpl. auto 10.
Qed.

Lemma getAttributeAccessor_appends_witness :
  length (primitiveDatas normalGeometry) = length (primitiveDatas bareGeometry)
  /\ (forall j, j <> 0%nat ->
        primitiveDatas normalGeometry !! j = primitiveDatas bareGeometry !! j)
  /\ exists p p' added,
       primitiveDatas bareGeometry !! 0%nat = Some p
       /\ primitiveDatas normalGeometry !! 0%nat = Some p'
       /\ indices p' = indices p /\ joints p' = joints p
       /\ boundingBox p' = boundingBox p
       /\ attributeDatas p' = attributeDatas p ++ added
       /\ (added = []
           \/ added = [mkAttributeData (Some ATTR_NORMAL) (Some generatedNormals)]).
Proof.
  apply (getAttributeAccessor_appends bareGeometry normalGeometry 0 ATTR_NORMAL
           (Some generatedNormals)).
  vm_compute. reflexivity.
Defined.

(** ** Generating the normals *)

Lemma attributeArray_withAttribute (tag : AttributeName) (p : PrimitiveData)
    (entry : AttributeData) :
  name entry <> Some tag ->
  attributeArray tag (withAttribute p entry) = attributeArray tag p.
Proof.
  intros Hname. unfold attributeArray; simpl.
  destruct (find (named tag) (attributeDatas p)) as [ad|] eqn:Hf.
  - rewrite (find_app_Some _ _ _ _ Hf). reflexivity.
  - rewrite (find_app_None _ _ _ Hf). simpl.
    unfold named. rewrite bool_decide_eq_false_2 by exact Hname. reflexivity.
Qed.

(** The generators read the positions, the texture coordinates and the
    indices only: an entry of another name changes nothing for them. *)
Lemma computeTangents_withAttribute (p : PrimitiveData) (entry : AttributeData)
    (normalArray : option TypeArray) :
  name entry <> Some ATTR_POSITION -> name entry <> Some ATTR_TEX_COORD ->
  computeTangents (withAttribute p entry) normalArray = computeTangents p normalArray.
Proof.
  intros Hpos Htex. unfold computeTangents.
  rewrite !attributeArray_withAttribute by assumption. reflexivity.
Qed.

(** X8. Normals are generated once: when a request for Normal returns, the
    same request made again returns the same array and changes nothing, the
    normal generator having been started at most once and the tangent
    generator not at all.  When the normals had to be generated, the array
    returned is a new object holding the generated normals, three rounded
    components per vertex, stored as the last entry of the primitive. *)
Theorem getAttributeAccessor_normal_memoized (st st1 : State) (i : nat)
    (a : option TypeArray) :
  getAttributeAccessor i ATTR_NORMAL st = (Ret a, st1) ->
  getAttributeAccessor i ATTR_NORMAL st1 = (Ret a, st1)
  /\ (normalRuns st1 <= normalRuns st + 1)%nat
  /\ tangentRuns st1 = tangentRuns st
  /\ (forall p, primitiveDatas st !! i = Some p ->
        find (named ATTR_NORMAL) (attributeDatas p) = None ->
        exists normalList,
          computeNormals p = Ret normalList
          /\ a = Some (mkTypeArray (nextAddr st) (storeNormals normalList))
          /\ primitiveDatas st1 !! i
             = Some (withAttribute p (mkAttributeData (Some ATTR_NORMAL) a))).
Proof.
  unfold getAttributeAccessor. intros Hrun.
  destruct (primitiveDatas st !! i) as [p|] eqn:Hp;
    [|rewrite getAttributeAccessorN_missing in Hrun by exact Hp; discriminate].
  destruct (find (named ATTR_NORMAL) (attributeDatas p)) as [ad|] eqn:Hn.
  - rewrite (getAttributeAccessorN_present _ st i p _ ad Hp Hn) in Hrun.
    injection Hrun as <- <-.
    rewrite (getAttributeAccessorN_present _ st i p _ ad Hp Hn).
    repeat split; try lia. intros p' [= <-]. congruence.
  - rewrite (getAttributeAccessorN_normal _ st i p Hp Hn) in Hrun.
    destruct (computeNormals p) as [normalList|] eqn:Hc; [|discriminate].
    simpl in Hrun. injection Hrun as <- <-.
    set (array := mkTypeArray (nextAddr st) (storeNormals normalList)).
    set (entry := mkAttributeData (Some ATTR_NORMAL) (Some array)).
    assert (<[i := withAttribute p entry]> (primitiveDatas st) !! i
            = Some (withAttribute p entry)) as Hp1.
    { apply list_lookup_insert_eq. apply lookup_lt_Some in Hp. exact Hp. }
    repeat split.
    + apply (getAttributeAccessorN_present _ _ i (withAttribute p entry) _ entry);
        [exact Hp1|].
      simpl. rewrite (find_app_None _ _ _ Hn). reflexivity.
    + unfold normalRuns; simpl. rewrite List.filter_app, length_app; simpl. lia.
    + unfold tangentRuns; simpl. rewrite List.filter_app, length_app; simpl. lia.
    + intros p' [= <-] _. exists normalList.
      split; [exact Hc|]. split; [reflexivity | exact Hp1].
Qed.

Lemma getAttributeAccessor_normal_memoized_witness :
  getAttributeAccessor 0 ATTR_NORMAL normalGeometry
  = (Ret (Some generatedNormals), normalGeometry)
  /\ (normalRuns normalGeometry <= normalRuns bareGeometry + 1)%nat
  /\ tangentRuns normalGeometry = tangentRuns bareGeometry
  /\ (forall p, primitiveDatas bareGeometry !! 0%nat = Some p ->
        find (named ATTR_NORMAL) (attributeDatas p) = None ->
        exists normalList,
          computeNormals p = Ret normalList
          /\ Some generatedNormals
             = Some (mkTypeArray (nextAddr bareGeometry) (storeNormals normalList))
          /\ primitiveDatas normalGeometry !! 0%nat
             = Some (withAttribute p
                       (mkAttributeData (Some ATTR_NORMAL) (Some generatedNormals)))).
Proof.
  apply (getAttributeAccessor_normal_memoized bareGeometry normalGeometry 0
           (Some generatedNormals)).
  vm_compute. reflexivity.
Defined.

(** X9. Requesting Normal first makes the request for Tangent work: on a
    primitive with neither entry, once the request for Normal has returned
    the generated normals, the request for Tangent runs the tangent generator
    on the primitive and on those very normals, and returns its tangents as
    a new array when the generator returns (and throws what it throws
    otherwise). *)
Theorem getAttributeAccessor_normal_then_tangent (st st1 : State) (i : nat)
    (p : PrimitiveData) (normals : TypeArray) :
  primitiveDatas st !! i = Some p ->
  find (named ATTR_NORMAL) (attributeDatas p) = None ->
  find (named ATTR_TANGENT) (attributeDatas p) = None ->
  getAttributeAccessor i ATTR_NORMAL st = (Ret (Some normals), st1) ->
  match computeTangents p (Some normals) with
  | Ret tangentList =>
      exists st2,
        getAttributeAccessor i ATTR_TANGENT st1
        = (Ret (Some (mkTypeArray (S (nextAddr st)) (storeTangents tangentList))), st2)
  | Throw e =>
      exists st2, getAttributeAccessor i ATTR_TANGENT st1 = (Throw e, st2)
  end.
Proof.
  unfold getAttributeAccessor. intros Hp Hn Ht Hrun.
  rewrite (getAttributeAccessorN_normal _ st i p Hp Hn) in Hrun.
  destruct (computeNormals p) as [normalList|]; [|discriminate].
  simpl in Hrun. injection Hrun as <- <-.
  set (array := mkTypeArray (nextAddr st) (storeNormals normalList)).
  set (entry := mkAttributeData (Some ATTR_NORMAL) (Some array)).
  set (st1 := mkState _ _ _).
  assert (primitiveDatas st1 !! i = Some (withAttribute p entry)) as Hp1.
  { apply list_lookup_insert_eq. apply lookup_lt_Some in Hp. exact Hp. }
  assert (find (named ATTR_TANGENT) (attributeDatas (withAttribute p entry)) = None)
    as Ht1.
  { simpl. rewrite (find_app_None _ _ _ Ht). reflexivity. }
  assert (find (named ATTR_NORMAL) (attributeDatas (withAttribute p entry)) = Some entry)
    as Hn1.
  { simpl. rewrite (find_app_None _ _ _ Hn). reflexivity. }
  rewrite (getAttributeAccessorN_tangent _ st1 i _ entry Hp1 Ht1 Hn1).
  rewrite computeTangents_withAttribute by discriminate. simpl.
  destruct (computeTangents p (Some array)); eexists; reflexivity.
Qed.

Lemma getAttributeAccessor_normal_then_tangent_witness :
  match computeTangents bareTriangle (Some generatedNormals) with
  | Ret tangentList =>
      exists st2,
        getAttributeAccessor 0 ATTR_TANGENT normalGeometry
        = (Ret (Some (mkTypeArray (S (nextAddr bareGeometry))
                        (storeTangents tangentList))), st2)
  | Throw e =>
      exists st2, getAttributeAccessor 0 ATTR_TANGENT normalGeometry = (Throw e, st2)
  end.
Proof.
  apply (getAttributeAccessor_normal_then_tangent bareGeometry normalGeometry 0
           bareTriangle generatedNormals).
  - reflexivity.
  - reflexivity.
  - reflexivity.
  - vm_compute. reflexivity.
Defined.

(** ** The layout of the generated arrays *)

Lemma flat_map_length_const {A B} (f : A -> list B) (k : nat) (xs : list A) :
  (forall x, length (f x) = k) -> length (flat_map f xs) = (length xs * k)%nat.
Proof.
  intros Hf. induction xs as [|x xs IH]; simpl; [reflexivity|].
  rewrite length_app, Hf, IH. reflexivity.
Qed.

(** X10. The arrays built for the generated attributes are dense: the
    loop of [createNormalTypeArray] leaves the rounded components of the
    normals one vertex after the other, three per vertex, and the loop of
    [createTangentAccessor] the rounded components of the tangents, four per
    vertex, with no slot left at its initial zero. *)
Theorem generated_arrays_dense (normalList : list vec3.t) (tangentList : list vec4.t) :
  storeNormals normalList
  = flat_map (fun normal => [fround (vec3.c0 normal); fround (vec3.c1 normal);
                             fround (vec3.c2 normal)]) normalList
  /\ storeTangents tangentList
     = flat_map (fun tangent => [fround (vec4.c0 tangent); fround (vec4.c1 tangent);
                                 fround (vec4.c2 tangent); fround (vec4.c3 tangent)])
         tangentList.
Proof.
  split.
  - unfold storeNormals.
    set (f := fun normal => [fround (vec3.c0 normal); fround (vec3.c1 normal);
                             fround (vec3.c2 normal)]).
    set (n := length normalList).
    match goal with
    | |- fold_left ?step (seq 0 n) ?init = _ =>
        pose proof (fold_left_seq_invariant step
             (fun m arr => arr = flat_map f (take m normalList)
                                 ++ replicate ((n - m) * 3) 0)
             n init) as Hinv
    end.
    rewrite Hinv.
    + rewrite take_ge by reflexivity. rewrite Nat.sub_diag. simpl.
      apply app_nil_r.
    + rewrite Nat.sub_0_r. reflexivity.
    + intros m arr Hm ->.
      destruct (lookup_lt_is_Some_2 normalList m Hm) as [t Ht]. rewrite Ht.
      assert (length (flat_map f (take m normalList)) = (m * 3)%nat) as Hlen.
      { rewrite (flat_map_length_const f 3) by reflexivity.
        rewrite length_take. fold n. f_equal. lia. }
      replace ((n - m) * 3)%nat with (S (S (S ((n - S m) * 3)))) by lia.
      rewrite (take_S_r _ _ _ Ht), flat_map_app. simpl.
      rewrite !insert_app_r_alt by (rewrite Hlen; lia). rewrite Hlen.
      replace (m * 3 + 0 - m * 3)%nat with 0%nat by lia.
      replace (m * 3 + 1 - m * 3)%nat with 1%nat by lia.
      replace (m * 3 + 2 - m * 3)%nat with 2%nat by lia.
      simpl. rewrite <- app_assoc. reflexivity.
  - unfold storeTangents.
    set (f := fun tangent => [fround (vec4.c0 tangent); fround (vec4.c1 tangent);
                              fround (vec4.c2 tangent); fround (vec4.c3 tangent)]).
    set (n := length tangentList).
    match goal with
    | |- fold_left ?step (seq 0 n) ?init = _ =>
        pose proof (fold_left_seq_invariant step
             (fun m arr => arr = flat_map f (take m tangentList)
                                 ++ replicate ((n - m) * 4) 0)
             n init) as Hinv
    end.
    rewrite Hinv.
    + rewrite take_ge by reflexivity. rewrite Nat.sub_diag. simpl.
      apply app_nil_r.
    + rewrite Nat.sub_0_r. reflexivity.
    + intros m arr Hm ->.
      destruct (lookup_lt_is_Some_2 tangentList m Hm) as [t Ht]. rewrite Ht.
      assert (length (flat_map f (take m tangentList)) = (m * 4)%nat) as Hlen.
      { rewrite (flat_map_length_const f 4) by reflexivity.
        rewrite length_take. fold n. f_equal. lia. }
      replace ((n - m) * 4)%nat with (S (S (S (S ((n - S m) * 4))))) by lia.
      rewrite (take_S_r _ _ _ Ht), flat_map_app. simpl.
      rewrite !insert_app_r_alt by (rewrite Hlen; lia). rewrite Hlen.
      replace (m * 4 + 0 - m * 4)%nat with 0%nat by lia.
      replace (m * 4 + 1 - m * 4)%nat with 1%nat by lia.
      replace (m * 4 + 2 - m * 4)%nat with 2%nat by lia.
      replace (m * 4 + 3 - m * 4)%nat with 3%nat by lia.
      simpl. rewrite <- app_assoc. reflexivity.
Qed.

(** X11. However long the position array is, a generated array counts one
    vertex for every started group of three position components: the
    generated Normal array has [3 * ceil(len / 3)] elements and the generated
    Tangent array [4 * ceil(len / 3)], [len] being the length of the position
    array. *)
Theorem generated_array_length (st st' : State) (i : nat) (tag : AttributeName)
    (p : PrimitiveData) (positions a : TypeArray) :
  primitiveDatas st !! i = Some p ->
  attributeArray ATTR_POSITION p = Ret (Some positions) ->
  find (named tag) (attributeDatas p) = None ->
  getAttributeAccessor i tag st = (Ret (Some a), st') ->
  (tag = ATTR_NORMAL
   /\ length (elems a) = ((length (elems positions) + 2) / 3 * 3)%nat)
  \/ (tag = ATTR_TANGENT
      /\ length (elems a) = ((length (elems positions) + 2) / 3 * 4)%nat).
Proof.
  unfold getAttributeAccessor. intros Hp Hpos Hf Hrun.
  destruct (decide (tag = ATTR_NORMAL)) as [->|Hn].
  { left. split; [reflexivity|].
    rewrite (getAttributeAccessorN_normal _ st i p Hp Hf) in Hrun.
    destruct (computeNormals p) as [normalList|] eqn:Hc; [|discriminate].
    simpl in Hrun. injection Hrun as <- <-. cbn [elems].
    rewrite length_storeNormals, (computeNormals_length p positions _ Hpos Hc).
    unfold upto3. rewrite length_seq. reflexivity. }
  destruct (decide (tag = ATTR_TANGENT)) as [->|Ht];
    [|rewrite (getAttributeAccessorN_other _ st i p tag Hp Hf Hn Ht) in Hrun;
      discriminate].
  right. split; [reflexivity|].
  destruct (find (named ATTR_NORMAL) (attributeDatas p)) as [nd|] eqn:Hnd;
    [|rewrite (getAttributeAccessorN_tangent_no_normal _ st i p Hp Hf Hnd) in Hrun;
      discriminate].
  rewrite (getAttributeAccessorN_tangent _ st i p nd Hp Hf Hnd) in Hrun.
  destruct (computeTangents p (data nd)) as [tangentList|] eqn:Hc; [|discriminate].
  simpl in Hrun. injection Hrun as <- <-. cbn [elems].
  rewrite (proj1 (storeTangents_spec tangentList)).
  rewrite (computeTangents_length p positions _ _ Hpos Hc).
  unfold upto3. rewrite length_seq. reflexivity.
Qed.

Lemma generated_array_length_witness :
  (ATTR_NORMAL = ATTR_NORMAL
   /\ length (elems (mkTypeArray 2 [0; 0; 0; 0; 0; 0])) = ((4 + 2) / 3 * 3)%nat)
  \/ (ATTR_NORMAL = ATTR_TANGENT
      /\ length (elems (mkTypeArray 2 [0; 0; 0; 0; 0; 0])) = ((4 + 2) / 3 * 4)%nat).
Proof.
  apply (generated_array_length (mkState [raggedTriangle] 2 [])
           (mkState [withAttribute raggedTriangle
                       (mkAttributeData (Some ATTR_NORMAL)
                          (Some (mkTypeArray 2 [0; 0; 0; 0; 0; 0])))]
              3 [NormalsComputed 0])
           0 ATTR_NORMAL raggedTriangle (mkTypeArray 1 [0; 0; 0; 1])
           (mkTypeArray 2 [0; 0; 0; 0; 0; 0])).
  - reflexivity.
  - reflexivity.
  - reflexivity.
  - vm_compute. reflexivity.
Defined.

(** ** What the normal generator needs, and what it leaves alone *)

Lemma addInto_Ret (vs vs' : list vec3.t) (index : value) (d : vec3.t) :
  addInto vs index d = Ret vs' ->
  exists k n a,
    index = Some k /\ slot (length vs) k = Some n /\ vs !! n = Some a
    /\ vs' = <[n := vec3.add a d]> vs.
Proof.
  unfold addInto. destruct index as [k|]; [|discriminate].
  destruct (slot (length vs) k) as [n|] eqn:Hslot; [|discriminate].
  destruct (vs !! n) as [a|] eqn:Ha; [|discriminate].
  intros [= <-]. exists k, n, a. auto.
Qed.

(** One pass of the loop of [computeNormals]: the three indices of the
    triangle are there and address vertices, which are the only ones
    written. *)
Lemma normalsOfTriangle_Ret (positionArray indicesArray : list float)
    (vs vs' : list vec3.t) (i : nat) :
  normalsOfTriangle positionArray indicesArray vs i = Ret vs' ->
  length vs' = length vs
  /\ (forall j, (j < 3)%nat ->
        exists index n, indicesArray !! (i + j)%nat = Some index
                        /\ slot (length vs) index = Some n)
  /\ (forall m,
        (forall j index, (j < 3)%nat -> indicesArray !! (i + j)%nat = Some index ->
                         slot (length vs) index <> Some m) ->
        vs' !! m = vs !! m).
Proof.
  unfold normalsOfTriangle. intros Hrun.
  apply obind_Ret in Hrun. destruct Hrun as (vs1 & H1 & Hrun).
  apply obind_Ret in Hrun. destruct Hrun as (vs2 & H2 & H3).
  apply addInto_Ret in H1. destruct H1 as (k1 & n1 & a1 & Hi1 & Hs1 & _ & ->).
  apply addInto_Ret in H2. destruct H2 as (k2 & n2 & a2 & Hi2 & Hs2 & _ & ->).
  apply addInto_Ret in H3. destruct H3 as (k3 & n3 & a3 & Hi3 & Hs3 & _ & ->).
  rewrite !length_insert in *.
  split; [reflexivity|]. split.
  - intros j Hj.
    destruct j as [|[|[|j]]]; [exists k1, n1 | exists k2, n2 | exists k3, n3 | lia];
      auto.
  - intros m Hm.
    rewrite !list_lookup_insert_ne; [reflexivity| | |].
    + intros ->. exact (Hm 0%nat k1 ltac:(lia) Hi1 Hs1).
    + intros ->. exact (Hm 1%nat k2 ltac:(lia) Hi2 Hs2).
    + intros ->. exact (Hm 2%nat k3 ltac:(lia) Hi3 Hs3).
Qed.

(** What [computeNormals] is made of, once it returned. *)
Lemma computeNormals_Ret (p : PrimitiveData) (normalList : list vec3.t) :
  computeNormals p = Ret normalList ->
  exists positions indexes accumulated,
    attributeArray ATTR_POSITION p = Ret (Some positions)
    /\ indices p = Some indexes
    /\ foldM (normalsOfTriangle (elems positions) (elems indexes))
         (by3 (length (elems indexes)))
         (map (fun _ => vec3.create) (upto3 (length (elems positions))))
       = Ret accumulated
    /\ normalList = map vec3.normalize accumulated.
Proof.
  unfold computeNormals. intros Hrun.
  apply obind_Ret in Hrun. destruct Hrun as ([positions|] & Hpos & Hrun);
    [|discriminate].
  destruct (indices p) as [indexes|]; [|discriminate].
  simpl in Hrun.
  apply obind_Ret in Hrun. destruct Hrun as (accumulated & Hloop & [= <-]).
  exists positions, indexes, accumulated. auto.
Qed.

(** X12. [computeNormals] returns only on a primitive that has a Position
    array and an index array, the index array being made of whole triangles
    and every index addressing a vertex; it then returns one normal for
    every started group of three position components.  (Otherwise it throws
    a [TypeError].) *)
Theorem computeNormals_returns (p : PrimitiveData) (normalList : list vec3.t) :
  computeNormals p = Ret normalList ->
  exists positions indexes,
    attributeArray ATTR_POSITION p = Ret (Some positions)
    /\ indices p = Some indexes
    /\ length normalList = ((length (elems positions) + 2) / 3)%nat
    /\ (length (elems indexes) `mod` 3 = 0)%nat
    /\ forall k index, elems indexes !! k = Some index ->
         exists n, slot (length normalList) index = Some n.
Proof.
  intros Hrun.
  destruct (computeNormals_Ret p normalList Hrun)
    as (positions & indexes & accumulated & Hpos & Hidx & Hloop & ->).
  exists positions, indexes.
  split; [exact Hpos|]. split; [exact Hidx|].
  set (count := ((length (elems positions) + 2) / 3)%nat).
  remember (length (elems indexes)) as len eqn:Hlen'.
  assert (length (map (fun _ : nat => vec3.create) (upto3 (length (elems positions))))
          = count) as Hinit.
  { rewrite length_map. unfold upto3. apply length_seq. }
  assert (forall vs i vs',
            normalsOfTriangle (elems positions) (elems indexes) vs i = Ret vs' ->
            length vs = count -> length vs' = count) as Hbody.
  { intros vs i vs' Hstep Hlen.
    apply normalsOfTriangle_Ret in Hstep. destruct Hstep as (Hl & _). congruence. }
  assert (length accumulated = count) as Hcount.
  { exact (foldM_invariant _ (fun vs => length vs = count) _ _ _ Hbody Hloop Hinit). }
  assert (forall q j, (q < (len + 2) / 3)%nat -> (j < 3)%nat ->
            exists index n, elems indexes !! (q * 3 + j)%nat = Some index
                            /\ slot count index = Some n) as Hsteps.
  { intros q j Hq Hj.
    destruct (foldM_steps _ (fun vs => length vs = count) _ _ _
                Hbody Hloop Hinit (q * 3)%nat) as (vs1 & vs2 & Hlen & Hstep).
    { unfold by3, upto3. apply in_map_iff. exists q. split; [reflexivity|].
      apply in_seq. lia. }
    apply normalsOfTriangle_Ret in Hstep. destruct Hstep as (_ & Hthere & _).
    rewrite Hlen in Hthere. exact (Hthere j Hj). }
  rewrite length_map, Hcount.
  assert (forall q, (q * 3 < len)%nat -> (q < (len + 2) / 3)%nat) as Hquot.
  { intros q Hq. apply (Nat.div_le_lower_bound (len + 2) 3 (S q)); lia. }
  split; [reflexivity|]. split.
  - destruct (decide (len `mod` 3 = 0)%nat) as [Hmod|Hmod]; [exact Hmod|].
    exfalso.
    pose proof (Nat.div_mod_eq len 3) as Hdiv.
    pose proof (Nat.mod_upper_bound len 3 ltac:(lia)) as Hup.
    destruct (Hsteps (len / 3)%nat 2%nat) as (index & n & Hget & _);
      [apply Hquot; lia | lia |].
    apply lookup_lt_Some in Hget. rewrite <- Hlen' in Hget. lia.
  - intros k index Hk.
    pose proof (lookup_lt_Some _ _ _ Hk) as Hlt. rewrite <- Hlen' in Hlt.
    pose proof (Nat.div_mod_eq k 3) as Hdiv.
    pose proof (Nat.mod_upper_bound k 3 ltac:(lia)) as Hup.
    destruct (Hsteps (k / 3)%nat (k `mod` 3)%nat) as (index' & n & Hget & Hslot);
      [apply Hquot; lia | lia |].
    replace (k / 3 * 3 + k `mod` 3)%nat with k in Hget by lia.
    exists n. congruence.
Qed.

Lemma computeNormals_returns_witness :
  exists positions indexes,
    attributeArray ATTR_POSITION bareTriangle = Ret (Some positions)
    /\ indices bareTriangle = Some indexes
    /\ length [vec3.mk 0 0 1; vec3.mk 0 0 1; vec3.mk 0 0 1]
       = ((length (elems positions) + 2) / 3)%nat
    /\ (length (elems indexes) `mod` 3 = 0)%nat
    /\ forall k index, elems indexes !! k = Some index ->
         exists n,
           slot (length [vec3.mk 0 0 1; vec3.mk 0 0 1; vec3.mk 0 0 1]) index = Some n.
Proof.
  apply (computeNormals_returns bareTriangle
           [vec3.mk 0 0 1; vec3.mk 0 0 1; vec3.mk 0 0 1]).
  vm_compute. reflexivity.
Defined.

Lemma normalize_zero : vec3.normalize vec3.create = vec3.mk 0 0 0.
Proof. vm_compute. reflexivity. Qed.

(** X13. A vertex that no index of the index array addresses gets the
    zero vector as its normal (the normalization of its untouched
    accumulator): with an empty index array every normal is zero. *)
Theorem computeNormals_unreferenced (p : PrimitiveData) (normalList : list vec3.t)
    (indexes : TypeArray) (n : nat) :
  computeNormals p = Ret normalList ->
  indices p = Some indexes ->
  (n < length normalList)%nat ->
  (forall k index, elems indexes !! k = Some index ->
                   slot (length normalList) index <> Some n) ->
  normalList !! n = Some (vec3.mk 0 0 0).
Proof.
  intros Hrun Hidx Hn Hfree.
  destruct (computeNormals_Ret p normalList Hrun)
    as (positions & indexes' & accumulated & Hpos & Hidx' & Hloop & ->).
  assert (indexes' = indexes) as -> by congruence.
  rewrite length_map in Hn, Hfree.
  set (init := map (fun _ : nat => vec3.create) (upto3 (length (elems positions))))
    in *.
  assert (length accumulated = length init) as Hlen.
  { apply (foldM_invariant _ (fun vs => length vs = length init) _ _ _)
      in Hloop; [exact Hloop| |reflexivity].
    intros vs i vs' Hstep Hl. apply normalsOfTriangle_Ret in Hstep.
    destruct Hstep as (Hl' & _). congruence. }
  assert (init !! n = Some vec3.create) as Hzero.
  { assert (n < length (upto3 (length (elems positions))))%nat as Hn'.
    { rewrite Hlen in Hn. unfold init in Hn. rewrite length_map in Hn. exact Hn. }
    destruct (lookup_lt_is_Some_2 _ n Hn') as [m Hm].
    unfold init. rewrite list_lookup_fmap, Hm. reflexivity. }
  apply (foldM_invariant _
           (fun vs => length vs = length init /\ vs !! n = Some vec3.create) _ _ _)
    in Hloop; [| |split; [reflexivity | exact Hzero]].
  - destruct Hloop as [_ Hget]. rewrite list_lookup_fmap, Hget.
    exact (f_equal Some normalize_zero).
  - intros vs i vs' Hstep [Hl Hget].
    apply normalsOfTriangle_Ret in Hstep. destruct Hstep as (Hl' & _ & Hkeep).
    split; [congruence|]. rewrite Hkeep; [exact Hget|].
    intros j index _ Hindex. rewrite Hl, <- Hlen. exact (Hfree _ _ Hindex).
Qed.

Lemma computeNormals_unreferenced_witness :
  [vec3.mk 0 0 1; vec3.mk 0 0 1; vec3.mk 0 0 1; vec3.mk 0 0 0] !! 3%nat
  = Some (vec3.mk 0 0 0).
Proof.
  apply (computeNormals_unreferenced looseVertex
           [vec3.mk 0 0 1; vec3.mk 0 0 1; vec3.mk 0 0 1; vec3.mk 0 0 0]
           (mkTypeArray 0 triangleIndices) 3).
  - vm_compute. reflexivity.
  - reflexivity.
  - simpl. lia.
  - intros [|[|[|k]]] index; simpl; intros [= <-]; vm_compute; discriminate.
Defined.

(** ** What the tangent generator needs *)

(** X14. [computeTangents] returns only on a primitive that has a Position
    array, a TexCoord0 entry and an index array; the texture coordinate
    array may be missing from its entry only if there is no triangle, and
    the normal array may be missing only if there is no vertex.  It then
    returns one tangent for every started group of three position
    components.  (Otherwise it throws a [TypeError].) *)
Theorem computeTangents_returns (p : PrimitiveData) (normalArray : option TypeArray)
    (tangentList : list vec4.t) :
  computeTangents p normalArray = Ret tangentList ->
  exists positions coords indexes,
    attributeArray ATTR_POSITION p = Ret (Some positions)
    /\ attributeArray ATTR_TEX_COORD p = Ret coords
    /\ indices p = Some indexes
    /\ length tangentList = ((length (elems positions) + 2) / 3)%nat
    /\ (coords = None -> elems indexes = [])
    /\ (normalArray = None -> tangentList = []).
Proof.
  unfold computeTangents. intros Hrun.
  apply obind_Ret in Hrun. destruct Hrun as ([positions|] & Hpos & Hrun);
    [|discriminate].
  simpl in Hrun.
  apply obind_Ret in Hrun. destruct Hrun as (coords & Hcoords & Hrun).
  destruct (indices p) as [indexes|] eqn:Hidx; [|discriminate].
  simpl in Hrun.
  apply obind_Ret in Hrun. destruct Hrun as (tans & Htans & Hrun).
  exists positions, coords, indexes.
  split; [exact Hpos|]. split; [exact Hcoords|]. split; [reflexivity|].
  split; [|split].
  - rewrite (mapM_length _ _ _ Hrun). unfold upto3. apply length_seq.
  - intros ->. destruct (decide (upto3 (length (elems indexes)) = [])) as [Hno|];
      [|discriminate].
    unfold upto3 in Hno. apply (f_equal length) in Hno.
    rewrite length_seq in Hno. change (length []) with 0%nat in Hno.
    destruct (elems indexes) as [|index rest]; [reflexivity|].
    exfalso. cbn [length] in Hno.
    assert (1 <= (S (length rest) + 2) / 3)%nat as Hone
      by (apply Nat.div_le_lower_bound; lia).
    rewrite Hno in Hone. lia.
  - intros ->. destruct tangentList as [|tangent rest]; [reflexivity|].
    destruct (mapM_lookup _ _ _ 0 tangent Hrun eq_refl) as (i & _ & Hi).
    discriminate.
Qed.

Lemma computeTangents_returns_witness :
  exists positions coords indexes,
    attributeArray ATTR_POSITION shadedTriangle = Ret (Some positions)
    /\ attributeArray ATTR_TEX_COORD shadedTriangle = Ret coords
    /\ indices shadedTriangle = Some indexes
    /\ length [vec4.mk 1 0 0 1; vec4.mk 1 0 0 1; vec4.mk 1 0 0 1]
       = ((length (elems positions) + 2) / 3)%nat
    /\ (coords = None -> elems indexes = [])
    /\ (Some (mkTypeArray 3 triangleNormals) = None ->
        [vec4.mk 1 0 0 1; vec4.mk 1 0 0 1; vec4.mk 1 0 0 1] = []).
Proof.
  apply (computeTangents_returns shadedTriangle (Some (mkTypeArray 3 triangleNormals))
           [vec4.mk 1 0 0 1; vec4.mk 1 0 0 1; vec4.mk 1 0 0 1]).
  vm_compute. reflexivity.
Defined.

End GeometryExtras.

(* ================================================================== *)
(** * Further properties of the metadata holder *)

Module MetaExtras.
Import OutcomeFacts CocosMesh MetaFacts.
Local Open Scope outcome_scope.

(** ** When the holder and its setters return *)

Lemma getProp_Throw (v : jsval) (k : string) (e : exn) :
  getProp v k = Throw e -> e = TypeError /\ (v = JUndefined \/ v = JNull).
Proof. destruct v; simpl; try discriminate; intros [= <-]; auto. Qed.

Lemma getProp_Ret (v : jsval) (k : string) :
  v <> JUndefined -> v <> JNull -> exists v', getProp v k = Ret v'.
Proof. destruct v; simpl; intros H1 H2; try congruence; eauto. Qed.

Lemma getPath_Throw (path : list string) (doc : jsval) (e : exn) :
  getPath path doc = Throw e -> e = TypeError.
Proof.
  revert doc; induction path as [|k path IH]; intros doc; [discriminate|].
  rewrite getPath_cons. destruct (getProp doc k) as [v|e'] eqn:Hk; simpl.
  - apply IH.
  - intros [= <-]. exact (proj1 (getProp_Throw _ _ _ Hk)).
Qed.

Lemma setIndex_Throw (v : jsval) (n : nat) (x : jsval) (e : exn) :
  setIndex v n x = Throw e -> e = TypeError /\ isObject v = false.
Proof. destruct v; simpl; try discriminate; intros [= <-]; auto. Qed.

Lemma setIndex_object (v : jsval) (n : nat) (x : jsval) :
  isObject v = true -> exists v', setIndex v n x = Ret v' /\ isObject v' = true.
Proof. destruct v; simpl; try discriminate; intros _; eauto. Qed.

Lemma data_mk (doc : jsval) : data (mkCocosMeshMeta doc) = doc.
Proof. reflexivity. Qed.

(** A setter, read as: reach the array, write it, put it back. *)
Lemma setPosition_eq (slot : nat) (this : CocosMeshMeta) (v : Vec3) :
  setPosition slot this v
  = (array <- getPath (keys [5; 0; 3; slot]) (data this) ;;
     array' <- written v array ;;
     Ret (mkCocosMeshMeta (replaceAt [5; 0; 3; slot] array' (data this)))).
Proof.
  unfold setPosition, getBin, getIndex, written.
  change (keys [5; 0; 3; slot])
    with [key_of_nat 5; key_of_nat 0; key_of_nat 3; key_of_nat slot].
  rewrite getPath_cons.
  destruct (getProp (data this) (key_of_nat 5)) as [d5|]; cbn [obind]; [|reflexivity].
  rewrite getPath_cons.
  destruct (getProp d5 (key_of_nat 0)) as [d50|]; cbn [obind]; [|reflexivity].
  rewrite getPath_cons.
  destruct (getProp d50 (key_of_nat 3)) as [bin|]; cbn [obind]; [|reflexivity].
  rewrite getPath_cons.
  destruct (getProp bin (key_of_nat slot)) as [array|]; cbn [obind]; [|reflexivity].
  unfold getPath; cbn [foldM obind].
  destruct (setIndex array 1 _) as [a1|]; cbn [obind]; [|reflexivity].
  destruct (setIndex a1 2 _) as [a2|]; cbn [obind]; [|reflexivity].
  destruct (setIndex a2 3 _); reflexivity.
Qed.

Lemma written_object (v : Vec3) (array : jsval) :
  isObject array = true ->
  exists array', written v array = Ret array' /\ isObject array' = true.
Proof.
  intros Hobj. unfold written.
  destruct (setIndex_object array 1 (JNum (x v)) Hobj) as (a1 & -> & H1).
  cbn [obind].
  destruct (setIndex_object a1 2 (JNum (y v)) H1) as (a2 & -> & H2).
  cbn [obind].
  exact (setIndex_object a2 3 (JNum (z v)) H2).
Qed.

Lemma written_Throw (v : Vec3) (array : jsval) (e : exn) :
  written v array = Throw e -> e = TypeError /\ isObject array = false.
Proof.
  unfold written.
  destruct (setIndex array 1 (JNum (x v))) as [a1|e1] eqn:H1; cbn [obind].
  - destruct (setIndex_isObject _ _ _ _ H1) as [Hobj Hobj1].
    destruct (setIndex_object a1 2 (JNum (y v)) Hobj1) as (a2 & -> & Hobj2).
    cbn [obind].
    destruct (setIndex_object a2 3 (JNum (z v)) Hobj2) as (a3 & -> & _).
    discriminate.
  - intros [= <-]. exact (setIndex_Throw _ _ _ _ H1).
Qed.

(** X15. A position setter returns exactly when the document has, at
    [[5][0][3][3]] for the minimum and at [[5][0][3][6]] for the maximum, an
    array or an object to write into; otherwise it throws, and what it throws
    is a [TypeError]. *)
Theorem position_setters_return (this : CocosMeshMeta) (v : Vec3) :
  ((exists this', set_minPosition this v = Ret this') <->
   (exists array, getPath (keys [5; 0; 3; 3]) (data this) = Ret array
                  /\ isObject array = true))
  /\ ((exists this', set_maxPosition this v = Ret this') <->
      (exists array, getPath (keys [5; 0; 3; 6]) (data this) = Ret array
                     /\ isObject array = true))
  /\ (forall e, set_minPosition this v = Throw e \/ set_maxPosition this v = Throw e ->
                e = TypeError).
Proof.
  assert (forall slot,
            ((exists this', setPosition slot this v = Ret this') <->
             (exists array, getPath (keys [5; 0; 3; slot]) (data this) = Ret array
                            /\ isObject array = true))
            /\ (forall e, setPosition slot this v = Throw e -> e = TypeError))
    as Hslot.
  { intros slot. rewrite setPosition_eq.
    destruct (getPath (keys [5; 0; 3; slot]) (data this)) as [array|e0] eqn:Hget;
      cbn [obind].
    - destruct (isObject array) eqn:Hobj.
      + destruct (written_object v array Hobj) as (array' & -> & _). cbn [obind].
        split; [|discriminate]. split; eauto.
      + destruct (written v array) as [array'|e1] eqn:Hw; cbn [obind].
        * exfalso. unfold written in Hw.
          apply obind_Ret in Hw. destruct Hw as (a1 & H1 & _).
          apply setIndex_isObject in H1. destruct H1; congruence.
        * split.
          -- split; [intros [? ?]; discriminate|].
             intros (array0 & [= <-] & ?); congruence.
          -- intros e [= <-]. exact (proj1 (written_Throw _ _ _ Hw)).
    - split.
      + split; [intros [? ?]; discriminate | intros (? & ? & _); discriminate].
      + intros e [= <-]. exact (getPath_Throw _ _ _ Hget). }
  split; [exact (proj1 (Hslot 3%nat))|]. split; [exact (proj1 (Hslot 6%nat))|].
  intros e [He|He]; [exact (proj2 (Hslot 3%nat) e He) | exact (proj2 (Hslot 6%nat) e He)].
Qed.

(** ** The array a setter writes *)

(** The three writes on an array: in place when it has four elements or
    more, growing it to four otherwise. *)
Lemma written_array (v : Vec3) (items : list jsval) :
  written v (JArr items)
  = Ret (JArr (if decide (4 <= length items)%nat
               then <[3 := JNum (z v)]>
                      (<[2 := JNum (y v)]> (<[1 := JNum (x v)]> items))
               else take 1 (items ++ [JUndefined])
                      ++ [JNum (x v); JNum (y v); JNum (z v)])).
Proof.
  unfold written, setIndex; cbn [obind].
  destruct items as [|a [|b [|c [|d rest]]]];
    repeat (case_decide; simpl in *; try lia); reflexivity.
Qed.

(** X16. When the array a setter reaches is an array of four elements or
    more, the setter overwrites its elements 1, 2 and 3 in place and keeps
    its length; when it is shorter, the array grows to exactly four
    elements: its element 0 if it had one, a hole otherwise, then the three
    components. *)
Theorem position_setters_array (slot : nat) (this this' : CocosMeshMeta) (v : Vec3)
    (items : list jsval) :
  (slot = 3%nat /\ set_minPosition this v = Ret this')
  \/ (slot = 6%nat /\ set_maxPosition this v = Ret this') ->
  getPath (keys [5; 0; 3; slot]) (data this) = Ret (JArr items) ->
  getPath (keys [5; 0; 3; slot]) (data this')
  = Ret (JArr (if decide (4 <= length items)%nat
               then <[3 := JNum (z v)]>
                      (<[2 := JNum (y v)]> (<[1 := JNum (x v)]> items))
               else take 1 (items ++ [JUndefined])
                      ++ [JNum (x v); JNum (y v); JNum (z v)])).
Proof.
  intros Hcall Hget.
  assert (setPosition slot this v = Ret this') as Hrun
    by (destruct Hcall as [[-> Hrun]|[-> Hrun]]; exact Hrun).
  rewrite setPosition_eq, Hget in Hrun. cbn [obind] in Hrun.
  rewrite written_array in Hrun. cbn [obind] in Hrun. injection Hrun as <-.
  rewrite data_mk. apply (getPath_replaceAt_eq _ _ _ _ Hget). reflexivity.
Qed.

Lemma position_setters_array_witness :
  getPath (keys [5; 0; 3; 6])
    (data (mkCocosMeshMeta
             (MeshSamples.sampleDocument
                (JArr [JNull; JNull; JNull; JNull; JNull; JNull;
                       JArr [JUndefined; JNum 2; JNum 3; JNum 4]]))))
  = Ret (JArr (if decide (4 <= length ([] : list jsval))%nat
               then <[3 := JNum (z (mkVec3 2 3 4))]>
                      (<[2 := JNum (y (mkVec3 2 3 4))]>
                         (<[1 := JNum (x (mkVec3 2 3 4))]> []))
               else take 1 ([] ++ [JUndefined])
                      ++ [JNum (x (mkVec3 2 3 4)); JNum (y (mkVec3 2 3 4));
                          JNum (z (mkVec3 2 3 4))])).
Proof.
  apply (position_setters_array 6
           (mkCocosMeshMeta
              (MeshSamples.sampleDocument
                 (JArr [JNull; JNull; JNull; JNull; JNull; JNull; JArr []])))
           (mkCocosMeshMeta
              (MeshSamples.sampleDocument
                 (JArr [JNull; JNull; JNull; JNull; JNull; JNull;
                        JArr [JUndefined; JNum 2; JNum 3; JNum 4]])))
           (mkVec3 2 3 4) []).
  - right. split; [reflexivity | vm_compute; reflexivity].
  - reflexivity.
Defined.

(** ** How the setters compose *)

Lemma assoc_set_set (k : string) (a b : jsval) (props : list (string * jsval)) :
  assoc_set k b (assoc_set k a props) = assoc_set k b props.
Proof.
  induction props as [|[k0 v0] props IH]; simpl.
  - rewrite String.eqb_refl. reflexivity.
  - destruct (String.eqb k0 k) eqn:Hk; simpl; rewrite Hk; [reflexivity|].
    f_equal. exact IH.
Qed.

Lemma assoc_set_comm (k k' : string) (b c : jsval) (props : list (string * jsval)) :
  k <> k' -> is_Some (assoc k props) ->
  assoc_set k b (assoc_set k' c props) = assoc_set k' c (assoc_set k b props).
Proof.
  intros Hne. induction props as [|[k0 v0] props IH]; simpl.
  - intros [? ?]; discriminate.
  - destruct (String.eqb_spec k0 k) as [->|Hk].
    + intros _. destruct (String.eqb_spec k k') as [|_]; [congruence|].
      simpl. rewrite String.eqb_refl.
      destruct (String.eqb_spec k k') as [|_]; [congruence|]. reflexivity.
    + intros Hsome. destruct (String.eqb_spec k0 k') as [->|Hk'].
      * simpl. destruct (String.eqb_spec k' k) as [|_]; [congruence|].
        rewrite String.eqb_refl. reflexivity.
      * simpl. destruct (String.eqb_spec k0 k) as [|_]; [congruence|].
        destruct (String.eqb_spec k0 k') as [|_]; [congruence|].
        f_equal. exact (IH Hsome).
Qed.

(** Putting a node back twice at one place: the last one stays. *)
Lemma replaceAt_replaceAt (path : list nat) (a b doc : jsval) :
  replaceAt path b (replaceAt path a doc) = replaceAt path b doc.
Proof.
  revert doc; induction path as [|n path IH]; intros doc; [reflexivity|].
  destruct doc; try reflexivity; simpl.
  - destruct (items !! n) as [child|] eqn:Hn; simpl; [|rewrite Hn; reflexivity].
    rewrite list_lookup_insert_eq by (apply lookup_lt_Some in Hn; exact Hn).
    rewrite list_insert_insert_eq, IH. reflexivity.
  - destruct (assoc (key_of_nat n) props) as [child|] eqn:Hn; simpl;
      [|rewrite Hn; reflexivity].
    rewrite assoc_set_eq, assoc_set_set, IH. reflexivity.
Qed.

(** Putting nodes back at two places that part at their last index. *)
Lemma replaceAt_comm (path : list nat) (n m : nat) (a b doc : jsval) :
  n <> m ->
  replaceAt (path ++ [n]) a (replaceAt (path ++ [m]) b doc)
  = replaceAt (path ++ [m]) b (replaceAt (path ++ [n]) a doc).
Proof.
  intros Hne.
  assert (key_of_nat n <> key_of_nat m) as Hkey
    by (intros Heq; apply Hne, key_of_nat_inj, Heq).
  revert doc; induction path as [|i path IH]; intros doc.
  - destruct doc; try reflexivity; simpl.
    + destruct (items !! m) as [cm|] eqn:Hm; destruct (items !! n) as [cn|] eqn:Hn;
        simpl; rewrite ?list_lookup_insert_ne by congruence;
        rewrite ?Hm, ?Hn; try reflexivity.
      rewrite list_insert_insert_ne by congruence. reflexivity.
    + destruct (assoc (key_of_nat m) props) as [cm|] eqn:Hm;
        destruct (assoc (key_of_nat n) props) as [cn|] eqn:Hn;
        simpl; rewrite ?assoc_set_ne by congruence;
        rewrite ?Hm, ?Hn; try reflexivity.
      rewrite assoc_set_comm; [reflexivity | exact Hkey | rewrite Hn; eauto].
  - destruct doc; try reflexivity; simpl.
    + destruct (items !! i) as [child|] eqn:Hi; simpl; [|rewrite Hi; reflexivity].
      rewrite !list_lookup_insert_eq by (apply lookup_lt_Some in Hi; exact Hi).
      rewrite !list_insert_insert_eq, IH. reflexivity.
    + destruct (assoc (key_of_nat i) props) as [child|] eqn:Hi; simpl;
        [|rewrite Hi; reflexivity].
      rewrite !assoc_set_eq, !assoc_set_set, IH. reflexivity.
Qed.

Lemma minimum_apart_maximum :
  apart (keys [5; 0; 3; 3]) (keys [5; 0; 3; 6])
  /\ apart (keys [5; 0; 3; 6]) (keys [5; 0; 3; 3]).
Proof. split; solve_apart. Qed.

(** X17. The two setters commute: setting the minimum and then the
    maximum leaves the document that setting the maximum and then the
    minimum leaves, and the second order returns whenever the first does. *)
Theorem position_setters_commute (this this1 this12 : CocosMeshMeta) (v1 v2 : Vec3) :
  set_minPosition this v1 = Ret this1 ->
  set_maxPosition this1 v2 = Ret this12 ->
  exists this2,
    set_maxPosition this v2 = Ret this2
    /\ set_minPosition this2 v1 = Ret this12.
Proof.
  unfold set_minPosition, set_maxPosition. rewrite !setPosition_eq.
  intros Hmin Hmax.
  apply obind_Ret in Hmin. destruct Hmin as (a & Ha & Hmin).
  apply obind_Ret in Hmin. destruct Hmin as (a' & Ha' & Hthis1).
  assert (data this1 = replaceAt [5; 0; 3; 3] a' (data this)) as Hdata1
    by (inversion Hthis1; reflexivity).
  rewrite Hdata1 in Hmax.
  rewrite (getPath_replaceAt_apart _ _ _ _ (proj1 minimum_apart_maximum)) in Hmax.
  apply obind_Ret in Hmax. destruct Hmax as (b & Hb & Hmax).
  apply obind_Ret in Hmax. destruct Hmax as (b' & Hb' & Hthis12).
  eexists. rewrite Hb. cbn [obind]. rewrite Hb'. cbn [obind].
  split; [reflexivity|].
  rewrite setPosition_eq, !data_mk.
  rewrite (getPath_replaceAt_apart _ _ _ _ (proj2 minimum_apart_maximum)).
  rewrite Ha. cbn [obind]. rewrite Ha'. cbn [obind].
  rewrite <- Hthis12. f_equal. f_equal.
  exact (replaceAt_comm [5; 0; 3] 3 6 a' b' (data this) ltac:(lia)).
Qed.

Lemma position_setters_commute_witness :
  exists this2,
    set_maxPosition MeshSamples.sampleMeta (mkVec3 1 2 3) = Ret this2
    /\ set_minPosition this2 (mkVec3 (-1) (-2) (-3))
       = Ret (mkCocosMeshMeta
                (MeshSamples.sampleDocument
                   (JArr [JObj [("primitives"%string, JArr []);
                                ("vertexBundles"%string, JArr []);
                                ("jointMaps"%string, JNull)];
                          JNull; JNull;
                          JArr [JNum 8; JNum (-1); JNum (-2); JNum (-3)];
                          JNull; JNull;
                          JArr [JNum 8; JNum 1; JNum 2; JNum 3]]))).
Proof.
  apply (position_setters_commute MeshSamples.sampleMeta
           MeshSamples.sampleMetaAfterMin _ (mkVec3 (-1) (-2) (-3)) (mkVec3 1 2 3)).
  - vm_compute. reflexivity.
  - vm_compute. reflexivity.
Defined.

Lemma written_object_props (v : Vec3) (props : list (string * jsval)) :
  written v (JObj props)
  = Ret (JObj (assoc_set (key_of_nat 3) (JNum (z v))
                 (assoc_set (key_of_nat 2) (JNum (y v))
                    (assoc_set (key_of_nat 1) (JNum (x v)) props)))).
Proof. reflexivity. Qed.

(** Writing over what a first write left is writing directly. *)
Lemma written_written (v1 v2 : Vec3) (array array' : jsval) :
  written v1 array = Ret array' -> written v2 array' = written v2 array.
Proof.
  destruct array; try discriminate.
  - rewrite written_array. intros [= <-]. rewrite !written_array. do 2 f_equal.
    destruct items as [|a [|b [|c [|d rest]]]];
      repeat (case_decide; simpl in *; try lia); reflexivity.
  - rewrite written_object_props. intros [= <-]. rewrite !written_object_props.
    do 2 f_equal.
    assert (key_of_nat 1 <> key_of_nat 2) as H12 by (intros H%key_of_nat_inj; lia).
    assert (key_of_nat 1 <> key_of_nat 3) as H13 by (intros H%key_of_nat_inj; lia).
    assert (key_of_nat 2 <> key_of_nat 3) as H23 by (intros H%key_of_nat_inj; lia).
    set (k1 := key_of_nat 1) in *. set (k2 := key_of_nat 2) in *.
    set (k3 := key_of_nat 3) in *.
    rewrite (assoc_set_comm k1 k3) by
      (try exact H13; rewrite assoc_set_ne by exact H12; rewrite assoc_set_eq; eauto).
    rewrite (assoc_set_comm k1 k2) by
      (try exact H12; rewrite assoc_set_eq; eauto).
    rewrite assoc_set_set.
    rewrite (assoc_set_comm k2 k3) by
      (try exact H23; rewrite assoc_set_eq; eauto).
    rewrite assoc_set_set, assoc_set_set. reflexivity.
Qed.

(** X18. The last write wins: once a setter has returned, calling the same
    setter again, with any vector, gives what calling it with that vector on
    the original document gives (in particular, setting twice the same
    vector is setting it once). *)
Theorem position_setters_overwrite (slot : nat) (this this1 : CocosMeshMeta)
    (v1 v2 : Vec3) :
  (slot = 3%nat /\ set_minPosition this v1 = Ret this1)
  \/ (slot = 6%nat /\ set_maxPosition this v1 = Ret this1) ->
  (slot = 3%nat -> set_minPosition this1 v2 = set_minPosition this v2)
  /\ (slot = 6%nat -> set_maxPosition this1 v2 = set_maxPosition this v2).
Proof.
  intros Hcall.
  assert (setPosition slot this v1 = Ret this1) as Hrun
    by (destruct Hcall as [[-> Hrun]|[-> Hrun]]; exact Hrun).
  assert (setPosition slot this1 v2 = setPosition slot this v2) as Hsame.
  { rewrite setPosition_eq in Hrun.
    apply obind_Ret in Hrun. destruct Hrun as (a & Ha & Hrun).
    apply obind_Ret in Hrun. destruct Hrun as (a' & Ha' & Hthis1).
    assert (data this1 = replaceAt [5; 0; 3; slot] a' (data this)) as Hdata1
      by (inversion Hthis1; reflexivity).
    destruct (written_object v1 a) as (a'' & Ha'' & Hobj').
    { unfold written in Ha'. apply obind_Ret in Ha'. destruct Ha' as (a1 & H1 & _).
      exact (proj1 (setIndex_isObject _ _ _ _ H1)). }
    assert (isObject a = true) as Hobj.
    { unfold written in Ha'. apply obind_Ret in Ha'. destruct Ha' as (a1 & H1 & _).
      exact (proj1 (setIndex_isObject _ _ _ _ H1)). }
    rewrite !setPosition_eq, Hdata1.
    rewrite (getPath_replaceAt_eq _ _ _ a' Ha Hobj), Ha. cbn [obind].
    rewrite (written_written v1 v2 a a' Ha').
    destruct (written v2 a) as [b|]; cbn [obind]; [|reflexivity].
    rewrite replaceAt_replaceAt. reflexivity. }
  split; intros ->; exact Hsame.
Qed.

Lemma position_setters_overwrite_witness :
  (3%nat = 3%nat ->
   set_minPosition MeshSamples.sampleMetaAfterMin (CocosMesh.mkVec3 7 8 9)
   = set_minPosition MeshSamples.sampleMeta (CocosMesh.mkVec3 7 8 9))
  /\ (3%nat = 6%nat ->
      set_maxPosition MeshSamples.sampleMetaAfterMin (CocosMesh.mkVec3 7 8 9)
      = set_maxPosition MeshSamples.sampleMeta (CocosMesh.mkVec3 7 8 9)).
Proof.
  apply (position_setters_overwrite 3 MeshSamples.sampleMeta
           MeshSamples.sampleMetaAfterMin (mkVec3 (-1) (-2) (-3)) (mkVec3 7 8 9)).
  left. split; [reflexivity | vm_compute; reflexivity].
Defined.

(** ** The constructor of the holder *)

(** X19. The constructor of the holder returns exactly when the parsed
    document has an element [[5][0][3][0]] that is neither [null] nor
    undefined (so that its three descriptor fields can be read); the holder
    then keeps the parsed document as it is.  Otherwise the constructor
    throws a [TypeError]. *)
Theorem new_CocosMeshMeta_returns (parsed : jsval) :
  ((exists this, new_CocosMeshMeta parsed = Ret this) <->
   (exists bin, getPath (keys [5; 0; 3; 0]) parsed = Ret bin
                /\ bin <> JUndefined /\ bin <> JNull))
  /\ (forall this, new_CocosMeshMeta parsed = Ret this -> data this = parsed)
  /\ (forall e, new_CocosMeshMeta parsed = Throw e -> e = TypeError).
Proof.
  unfold new_CocosMeshMeta, primitives, vertexBundles, jointMaps.
  rewrite !binField_path.
  change [key_of_nat 5; key_of_nat 0; key_of_nat 3; key_of_nat 0; ?f]
    with (keys [5; 0; 3; 0] ++ [f]).
  rewrite !getPath_app, data_mk.
  destruct (getPath (keys [5; 0; 3; 0]) parsed) as [bin|e0] eqn:Hbin; cbn [obind].
  - rewrite !getPath_cons. unfold getPath; cbn [foldM].
    assert ((bin = JUndefined \/ bin = JNull) \/ (bin <> JUndefined /\ bin <> JNull))
      as [Hnull|Hbin']
      by (destruct bin; auto; right; split; discriminate).
    + assert (forall k, getProp bin k = Throw TypeError) as Hthrow
        by (intros k; destruct Hnull as [-> | ->]; reflexivity).
      rewrite !Hthrow. cbn [obind].
      split; [|split; [discriminate | congruence]].
      split; [intros [? ?]; discriminate|].
      intros (bin' & [= <-] & H1 & H2). tauto.
    + assert (forall k, exists v, getProp bin k = Ret v) as Hret
        by (intros k; apply getProp_Ret; tauto).
      destruct (Hret "primitives"%string) as [v1 ->].
      destruct (Hret "vertexBundles"%string) as [v2 ->].
      destruct (Hret "jointMaps"%string) as [v3 ->]. cbn [obind].
      split; [|split; [intros this [= <-]; reflexivity | discriminate]].
      split; [|eauto]. intros _. exists bin. tauto.
  - split; [|split; [discriminate|]].
    + split; [intros [? ?]; discriminate | intros (? & ? & _); discriminate].
    + intros e [= <-]. exact (getPath_Throw _ _ _ Hbin).
Qed.

End MetaExtras.

(* ================================================================== *)
(** * Further properties of the buffer decoder *)

Module DecoderExtras.
Import OutcomeFacts CocosMesh DecoderFacts.
Local Open Scope outcome_scope.

Section Decoder.
Context `{Cocos}.

(** X20. The decoder keeps the structure of the metadata: when the
    constructor returns, there is one bundle per vertex bundle descriptor,
    in order, holding one array per attribute of the descriptor, in order and
    tagged with that attribute, and one index array per submesh. *)
Theorem decoder_structure (arrayBuffer : list Byte.byte)
    (vertexBundles : list IVertexBundle) (primitives : list ISubMesh)
    (mesh : CocosMesh.t) :
  new_CocosMesh arrayBuffer vertexBundles primitives = Ret mesh ->
  Forall2 (fun vertexBundle bundle =>
             map attribute (attributeValues bundle) = attributes vertexBundle)
    vertexBundles (bundles mesh)
  /\ length (indexArrays mesh) = length primitives.
Proof.
  unfold new_CocosMesh. intros Hrun.
  apply obind_Ret in Hrun. destruct Hrun as (decoded & Hbundles & Hrun).
  apply obind_Ret in Hrun. destruct Hrun as (indexArrays & Hindices & [= <-]).
  simpl. split; [|exact (mapM_length _ _ _ Hindices)].
  apply mapM_Forall2 in Hbundles.
  eapply Forall2_impl; [exact Hbundles|].
  intros vertexBundle bundle Hdecode. unfold decodeBundle in Hdecode.
  apply obind_Ret in Hdecode. destruct Hdecode as (avs & Havs & [= <-]). simpl.
  apply list_eq. intros ia. rewrite list_lookup_fmap.
  destruct (attributes vertexBundle !! ia) as [attr|] eqn:Hattr.
  - assert (seq 0 (length (attributes vertexBundle)) !! ia = Some ia) as Hseq.
    { apply lookup_seq. split; [reflexivity|]. apply lookup_lt_Some in Hattr. exact Hattr. }
    destruct (mapM_lookup_Some _ _ _ ia ia Havs Hseq) as (av & Hget & Hav).
    rewrite Hget. simpl.
    destruct (decodeAttribute_spec _ _ _ _ _ Hattr Hav) as (Hname & _).
    rewrite Hname. reflexivity.
  - rewrite lookup_ge_None_2; [reflexivity|].
    rewrite (mapM_length _ _ _ Havs), length_seq.
    apply lookup_ge_None_1. exact Hattr.
Qed.

(** X21. The index arrays are views of the buffer: when the constructor
    returns, every submesh has an index view [{offset, count, stride}], the
    offset is a multiple of the element size of the constructor that
    [getIndexStrideCtor] gives for the stride, the [count] elements lie
    inside the buffer, and the element [i] of the submesh's array is what
    the constructor reads in the bytes [offset + i * size ..
    offset + (i + 1) * size - 1]. *)
Theorem decoder_index_views (arrayBuffer : list Byte.byte)
    (vertexBundles : list IVertexBundle) (primitives : list ISubMesh)
    (mesh : CocosMesh.t) (j : nat) (primitive : ISubMesh) :
  new_CocosMesh arrayBuffer vertexBundles primitives = Ret mesh ->
  primitives !! j = Some primitive ->
  exists indexView' ibo,
    indexView primitive = Some indexView'
    /\ indexArrays mesh !! j = Some ibo
    /\ let Ctor := getIndexStrideCtor (view_stride indexView') in
       let size := BYTES_PER_ELEMENT Ctor in
       view_offset indexView' `mod` size = 0%nat
       /\ (view_offset indexView' + view_count indexView' * size
           <= length arrayBuffer)%nat
       /\ length ibo = view_count indexView'
       /\ forall i, (i < view_count indexView')%nat ->
            ibo !! i
            = Some (element Ctor
                      (take size (drop (view_offset indexView' + i * size)
                                    arrayBuffer))).
Proof.
  unfold new_CocosMesh. intros Hrun Hj.
  apply obind_Ret in Hrun. destruct Hrun as (decoded & _ & Hrun).
  apply obind_Ret in Hrun. destruct Hrun as (arrays & Hindices & [= <-]).
  destruct (mapM_lookup_Some _ _ _ j primitive Hindices Hj) as (ibo & Hibo & Hdecode).
  unfold decodeIndices in Hdecode.
  destruct (indexView primitive) as [iv|]; [|discriminate].
  unfold new_TypedArray in Hdecode.
  destruct (decide _) as [[Haligned Hinside]|]; [|discriminate].
  injection Hdecode as <-.
  exists iv, (map (fun i => element (getIndexStrideCtor (view_stride iv))
                     (take (BYTES_PER_ELEMENT (getIndexStrideCtor (view_stride iv)))
                        (drop (view_offset iv
                               + i * BYTES_PER_ELEMENT
                                       (getIndexStrideCtor (view_stride iv)))
                           arrayBuffer)))
                (seq 0 (view_count iv))).
  split; [reflexivity|]. split; [exact Hibo|]. cbv zeta.
  split; [exact Haligned|]. split; [exact Hinside|].
  split; [rewrite length_map, length_seq; reflexivity|].
  intros i Hi. rewrite list_lookup_fmap, lookup_seq_lt by exact Hi. reflexivity.
Qed.

(** X22. A submesh without an index view stops the constructor with a
    [TypeError] once the vertex bundles are decoded, and an index view that
    is misaligned for its element size or reaches beyond the buffer stops it
    with a [RangeError], when the submeshes before it were decoded. *)
Theorem decoder_index_errors (arrayBuffer : list Byte.byte)
    (vertexBundles : list IVertexBundle) (before after : list ISubMesh)
    (primitive : ISubMesh) (decoded : list VertexBundle)
    (arrays : list (list float)) :
  mapM (decodeBundle arrayBuffer) vertexBundles = Ret decoded ->
  mapM (decodeIndices arrayBuffer) before = Ret arrays ->
  match indexView primitive with
  | None =>
      new_CocosMesh arrayBuffer vertexBundles (before ++ primitive :: after)
      = Throw TypeError
  | Some indexView' =>
      let size := BYTES_PER_ELEMENT (getIndexStrideCtor (view_stride indexView')) in
      view_offset indexView' `mod` size <> 0%nat
      \/ (length arrayBuffer
          < view_offset indexView' + view_count indexView' * size)%nat ->
      new_CocosMesh arrayBuffer vertexBundles (before ++ primitive :: after)
      = Throw RangeError
  end.
Proof.
  intros Hbundles Hbefore.
  assert (forall e, decodeIndices arrayBuffer primitive = Throw e ->
            new_CocosMesh arrayBuffer vertexBundles (before ++ primitive :: after)
            = Throw e) as Hstop.
  { intros e He. unfold new_CocosMesh. rewrite Hbundles. cbn [obind].
    clear Hbundles. revert arrays Hbefore.
    induction before as [|p before IH]; intros arrays Hbefore; simpl.
    - rewrite He. reflexivity.
    - simpl in Hbefore. destruct (decodeIndices arrayBuffer p) as [a|]; [|discriminate].
      simpl in *. destruct (mapM (decodeIndices arrayBuffer) before) as [rest|] eqn:Hrest;
        [|discriminate].
      specialize (IH rest eq_refl).
      destruct (mapM (decodeIndices arrayBuffer) (before ++ primitive :: after));
        simpl in *; [discriminate|exact IH]. }
  destruct (indexView primitive) as [iv|] eqn:Hiv.
  - cbv zeta. intros Hbad. apply Hstop. unfold decodeIndices. rewrite Hiv.
    unfold new_TypedArray. destruct (decide _) as [[Ha Hi]|]; [|reflexivity].
    destruct Hbad as [Hbad|Hbad]; [contradiction | lia].
  - apply Hstop. unfold decodeIndices. rewrite Hiv. reflexivity.
Qed.

(** X23. When decoding an attribute returns: exactly when the [DataView]
    of the attribute starts inside the buffer and, for every vertex and
    every component there is to read, the format has a reader and the
    getter of the format returns at the byte the loop asks for.  With no
    vertex or no component nothing is read, and the format needs no
    reader. *)
Theorem decodeAttribute_returns (arrayBuffer : list Byte.byte)
    (vertexBundle : IVertexBundle) (ia : nat) (attr : Attribute) :
  attributes vertexBundle !! ia = Some attr ->
  let start := (view_offset (view vertexBundle)
                + getOffset (attributes vertexBundle) ia)%nat in
  (exists attributeValue,
      decodeAttribute arrayBuffer vertexBundle ia = Ret attributeValue)
  <-> (start <= length arrayBuffer)%nat
      /\ forall v c,
           (v < view_count (view vertexBundle))%nat ->
           (c < count (FormatInfos (format attr)))%nat ->
           readable (format attr) = true
           /\ exists scalar,
                getter (format attr) arrayBuffer
                  (start
                   + (view_stride (view vertexBundle) * v
                      + BYTES_PER_ELEMENT
                          (getTypedArrayConstructor (FormatInfos (format attr))) * c))
                = Ret scalar.
Proof.
  intros Hattr start. unfold decodeAttribute. rewrite Hattr.
  unfold new_DataView. fold start. split.
  - intros [av Hrun]. destruct (decide _) as [Hin|]; [|discriminate].
    split; [exact Hin|]. cbn [obind] in Hrun.
    apply obind_Ret in Hrun. destruct Hrun as (storage & Hloops & _).
    apply decode_loops in Hloops. destruct Hloops as [_ Hall].
    intros v c Hv Hc. destruct (Hall v c Hv Hc) as (read & scalar & Hreader & Hread & _).
    unfold getReader in Hreader.
    destruct (readable (format attr)); [|discriminate].
    injection Hreader as <-. simpl in Hread. split; [reflexivity|].
    exists scalar. exact Hread.
  - intros [Hin Hall]. destruct (decide _) as [_|Hout]; [|contradiction].
    cbn [obind].
    match goal with
    | |- exists av, obind ?loops _ = _ =>
        assert (exists storage, loops = Ret storage) as [storage ->]
    end; [|simpl; eauto].
    apply foldM_total. intros st v Hv. apply foldM_total. intros st' c Hc.
    apply in_seq in Hv. apply in_seq in Hc.
    destruct (Hall v c) as (Hreadable & scalar & Hread); [lia|lia|].
    unfold readInto, getReader. rewrite Hreadable. simpl.
    rewrite Hread. simpl. eauto.
Qed.

(** X24. What decoding an attribute throws: a [RangeError] when the
    [DataView] would start beyond the buffer; a [TypeError] when the format
    has no reader and there is something to read; otherwise the exception
    of the format's getter at one of the bytes the loops ask for. *)
Theorem decodeAttribute_throws (arrayBuffer : list Byte.byte)
    (vertexBundle : IVertexBundle) (ia : nat) (attr : Attribute) (e : exn) :
  attributes vertexBundle !! ia = Some attr ->
  decodeAttribute arrayBuffer vertexBundle ia = Throw e ->
  let start := (view_offset (view vertexBundle)
                + getOffset (attributes vertexBundle) ia)%nat in
  (e = RangeError /\ (length arrayBuffer < start)%nat)
  \/ (start <= length arrayBuffer)%nat
     /\ exists v c,
          (v < view_count (view vertexBundle))%nat
          /\ (c < count (FormatInfos (format attr)))%nat
          /\ if readable (format attr)
             then getter (format attr) arrayBuffer
                    (start
                     + (view_stride (view vertexBundle) * v
                        + BYTES_PER_ELEMENT
                            (getTypedArrayConstructor (FormatInfos (format attr))) * c))
                  = Throw e
             else e = TypeError.
Proof.
  intros Hattr Hrun start. unfold decodeAttribute in Hrun. rewrite Hattr in Hrun.
  unfold new_DataView in Hrun. fold start in Hrun.
  destruct (decide _) as [Hin|Hout].
  - right. split; [exact Hin|]. cbn [obind] in Hrun.
    match type of Hrun with
    | obind ?loops _ = _ => destruct loops as [storage|e'] eqn:Hloops
    end; [discriminate|].
    simpl in Hrun. injection Hrun as ->.
    apply foldM_Throw in Hloops. destruct Hloops as (st & v & Hv & Hinner).
    apply foldM_Throw in Hinner. destruct Hinner as (st' & c & Hc & Hread).
    apply in_seq in Hv. apply in_seq in Hc.
    exists v, c. split; [lia|]. split; [lia|].
    unfold readInto, getReader in Hread.
    destruct (readable (format attr)).
    + simpl in Hread.
      match type of Hread with
      | obind ?r _ = _ => destruct r as [scalar|e'] eqn:Hget
      end; [discriminate|].
      simpl in Hread. injection Hread as ->. reflexivity.
    + injection Hread as <-. reflexivity.
  - left. simpl in Hrun. injection Hrun as <-. split; [reflexivity | lia].
Qed.

End Decoder.

Lemma decoder_structure_witness :
  Forall2 (fun vertexBundle bundle =>
             map attribute (attributeValues bundle) = attributes vertexBundle)
    [MeshSamples.sampleBundle] (bundles MeshSamples.sampleMesh)
  /\ length (indexArrays MeshSamples.sampleMesh)
     = length ([] : list ISubMesh).
Proof.
  apply (@decoder_structure MeshSamples.byteCocos MeshSamples.sampleBuffer
           [MeshSamples.sampleBundle] [] MeshSamples.sampleMesh).
  vm_compute. reflexivity.
Defined.

Lemma decoder_index_views_witness :
  exists indexView' ibo,
    indexView MeshSamples.sampleSubMesh = Some indexView'
    /\ [[30; 40; 50]%float] !! 0%nat = Some ibo
    /\ let Ctor := @getIndexStrideCtor MeshSamples.byteCocos (view_stride indexView') in
       let size := BYTES_PER_ELEMENT Ctor in
       view_offset indexView' `mod` size = 0%nat
       /\ (view_offset indexView' + view_count indexView' * size
           <= length MeshSamples.sampleBuffer)%nat
       /\ length ibo = view_count indexView'
       /\ forall i, (i < view_count indexView')%nat ->
            ibo !! i
            = Some (element Ctor
                      (take size (drop (view_offset indexView' + i * size)
                                    MeshSamples.sampleBuffer))).
Proof.
  apply (@decoder_index_views MeshSamples.byteCocos MeshSamples.sampleBuffer
           [MeshSamples.sampleBundle] [MeshSamples.sampleSubMesh]
           (mkCocosMesh (bundles MeshSamples.sampleMesh) [[30; 40; 50]%float])
           0 MeshSamples.sampleSubMesh).
  - vm_compute. reflexivity.
  - reflexivity.
Defined.

Lemma decoder_index_errors_witness :
  @new_CocosMesh MeshSamples.byteCocos MeshSamples.sampleBuffer
    [MeshSamples.sampleBundle]
    ([MeshSamples.sampleSubMesh] ++ mkISubMesh [] None :: [])
  = Throw TypeError.
Proof.
  apply (@decoder_index_errors MeshSamples.byteCocos MeshSamples.sampleBuffer
           [MeshSamples.sampleBundle] [MeshSamples.sampleSubMesh] []
           (mkISubMesh [] None) (bundles MeshSamples.sampleMesh)
           [[30; 40; 50]%float]).
  - vm_compute. reflexivity.
  - vm_compute. reflexivity.
Defined.

Lemma decodeAttribute_returns_witness :
  (exists attributeValue,
      @decodeAttribute MeshSamples.byteCocos MeshSamples.sampleBuffer
        MeshSamples.sampleBundle 0 = Ret attributeValue)
  <-> (0 + 0 <= length MeshSamples.sampleBuffer)%nat
      /\ forall v c, (v < 2)%nat -> (c < 3)%nat ->
           true = true
           /\ exists scalar,
                @getter MeshSamples.byteCocos MeshSamples.RGB8UI
                  MeshSamples.sampleBuffer (0 + 0 + (3 * v + 1 * c))
                = Ret scalar.
Proof.
  apply (@decodeAttribute_returns MeshSamples.byteCocos MeshSamples.sampleBuffer
           MeshSamples.sampleBundle 0 MeshSamples.RGB8UI).
  reflexivity.
Defined.

Lemma decodeAttribute_throws_witness :
  (RangeError = RangeError /\ (length MeshSamples.sampleBuffer < 0 + 0)%nat)
  \/ (0 + 0 <= length MeshSamples.sampleBuffer)%nat
     /\ exists v c, (v < 3)%nat /\ (c < 3)%nat
          /\ @getter MeshSamples.byteCocos MeshSamples.RGB8UI
               MeshSamples.sampleBuffer (0 + 0 + (3 * v + 1 * c))
             = Throw RangeError.
Proof.
  apply (@decodeAttribute_throws MeshSamples.byteCocos MeshSamples.sampleBuffer
           MeshSamples.shortBundle 0 MeshSamples.RGB8UI RangeError).
  - reflexivity.
  - vm_compute. reflexivity.
Defined.

End DecoderExtras.
